(** * csv_processor: a shallow embedding of [task1/csv_processor.py]

    The aggregation functions of [csv_processor.py] are embedded as total
    Rocq functions.  Python exceptions become the [Raise] branch of a small
    error monad, the file system is a finite view [string -> option source],
    and a CSV source is the sequence of records that [csv.reader] yields
    (the tokenizer itself, and therefore [csv.Error], is outside the model).
    Characters are code points below 256. *)

From Stdlib Require Import List String Ascii ZArith NArith Bool Lia.
From Stdlib Require Import Sorting Permutation OrderedTypeEx.
Import ListNotations.
Local Open Scope string_scope.
Local Open Scope list_scope.
Local Open Scope Z_scope.

(** ** Exceptions and the error monad *)

Inductive exn : Type :=
| ValueError (msg : string)
| FileNotFoundError (msg : string)
| AttributeError (msg : string)
| KeyError (key : option string)
| IndexError (msg : string)
| StrptimeValueError (data fmt : string).
(* [StrptimeValueError] is the [ValueError] that [datetime.strptime] raises;
   the wording of the library's message is not modelled. *)

Inductive result (A : Type) : Type :=
| Ok (a : A)
| Raise (e : exn).
Arguments Ok {A} a.
Arguments Raise {A} e.

Definition bind {A B : Type} (m : result A) (f : A -> result B) : result B :=
  match m with
  | Ok a => f a
  | Raise e => Raise e
  end.

Notation "x <- m ;; k" := (bind m (fun x => k))
  (at level 61, m at next level, right associativity).
Notation "m ;;; k" := (bind m (fun _ => k))
  (at level 61, right associativity).

Fixpoint mapM {A B : Type} (f : A -> result B) (l : list A) : result (list B) :=
  match l with
  | [] => Ok []
  | a :: l' => b <- f a ;; bs <- mapM f l' ;; Ok (b :: bs)
  end.

Fixpoint foldM {A S : Type} (f : S -> A -> result S) (l : list A) (s : S)
  : result S :=
  match l with
  | [] => Ok s
  | a :: l' => s' <- f s a ;; foldM f l' s'
  end.

(** ** Python string primitives *)

Module PyStr.

(** [str.isspace] on a single code point below 256. *)
Definition isspace (c : ascii) : bool :=
  let n := N_of_ascii c in
  (((9 <=? n) && (n <=? 13)) || ((28 <=? n) && (n <=? 32))
   || (n =? 133) || (n =? 160))%N.

Definition isdigit (c : ascii) : bool :=
  let n := N_of_ascii c in ((48 <=? n) && (n <=? 57))%N.

Definition lower_char (c : ascii) : ascii :=
  let n := N_of_ascii c in
  if (((65 <=? n) && (n <=? 90)) || ((192 <=? n) && (n <=? 214))
      || ((216 <=? n) && (n <=? 222)))%N
  then ascii_of_N (n + 32) else c.

(** [s.lower()] *)
Fixpoint lower (s : string) : string :=
  match s with
  | EmptyString => EmptyString
  | String c s' => String (lower_char c) (lower s')
  end.

(** [s.replace(" ", "")] *)
Fixpoint replace_space (s : string) : string :=
  match s with
  | EmptyString => EmptyString
  | String c s' =>
      if Ascii.eqb c " " then replace_space s' else String c (replace_space s')
  end.

Fixpoint lstrip (s : string) : string :=
  match s with
  | EmptyString => EmptyString
  | String c s' => if isspace c then lstrip s' else s
  end.

Fixpoint rstrip (s : string) : string :=
  match s with
  | EmptyString => EmptyString
  | String c s' =>
      match rstrip s' with
      | EmptyString => if isspace c then EmptyString else String c EmptyString
      | r => String c r
      end
  end.

(** [s.strip()] *)
Definition strip (s : string) : string := rstrip (lstrip s).

(** [s.endswith(suffix)] *)
Fixpoint endswith (s suffix : string) : bool :=
  String.eqb s suffix
  || match s with
     | EmptyString => false
     | String _ s' => endswith s' suffix
     end.

(** Truth value of a [str]. *)
Definition truthy (s : string) : bool := negb (String.eqb s "").

(** Occurrence of a character in a string. *)
Fixpoint contains (c : ascii) (s : string) : bool :=
  match s with
  | EmptyString => false
  | String c' s' => Ascii.eqb c' c || contains c s'
  end.

End PyStr.

(** ** Python dictionaries, in insertion order *)

Section Dict.
Context {K V : Type} (keqb : K -> K -> bool).

Definition dict : Type := list (K * V).

Fixpoint dict_get (d : dict) (k : K) : option V :=
  match d with
  | [] => None
  | (k', v) :: d' => if keqb k k' then Some v else dict_get d' k
  end.

(** [d[k] = v]: an existing key keeps its position. *)
Fixpoint dict_set (d : dict) (k : K) (v : V) : dict :=
  match d with
  | [] => [(k, v)]
  | (k', v') :: d' =>
      if keqb k k' then (k', v) :: d' else (k', v') :: dict_set d' k v
  end.

(** [dict(pairs)] *)
Definition dict_of_pairs (l : list (K * V)) : dict :=
  fold_left (fun d kv => dict_set d (fst kv) (snd kv)) l [].

End Dict.

(** ** csv.DictReader *)

(** A cell of a row dictionary: a field of the record, or [None] (the
    [restval] of a record shorter than the header). *)
Inductive cell : Type :=
| CStr (s : string)
| CNone.

Definition cell_eqb (a b : cell) : bool :=
  match a, b with
  | CStr s, CStr t => String.eqb s t
  | CNone, CNone => true
  | _, _ => false
  end.

(** Truth value of a cell ([if value:]). *)
Definition cell_truthy (c : cell) : bool :=
  match c with
  | CStr s => PyStr.truthy s
  | CNone => false
  end.

Definition row := @dict string cell.

(** What [csv.reader] yields for a file: one list of fields per record,
    the header first. *)
Definition source : Type := list (list string).

Definition filesystem : Type := string -> option source.

Module Csv.

(** [reader.fieldnames]: the first record, [None] for an empty file. *)
Definition fieldnames (src : source) : option (list string) :=
  match src with
  | [] => None
  | h :: _ => Some h
  end.

(** One step of [DictReader.__next__] on a non-blank record:
    [d = dict(zip(fieldnames, row))], then [restval] for the header names
    the record does not reach.  The surplus fields of a longer record are
    stored under the key [None], which no column lookup below can name;
    that entry is left out. *)
Definition make_row (fn : list string) (r : list string) : row :=
  let d := dict_of_pairs String.eqb (combine fn (map CStr r)) in
  fold_left (fun d k => dict_set String.eqb d k CNone) (skipn (List.length r) fn) d.

Definition is_blank (r : list string) : bool :=
  match r with [] => true | _ => false end.

(** The rows a [DictReader] iterates over: blank records are passed
    over, every other record becomes a dictionary. *)
Definition rows (src : source) : list row :=
  match src with
  | [] => []
  | fn :: recs => map (make_row fn) (filter (fun r => negb (is_blank r)) recs)
  end.

End Csv.

(** [open(csv_file)] followed by [csv.DictReader(file)]. *)
Definition open_reader (fs : filesystem) (csv_file : string) : result source :=
  match fs csv_file with
  | Some src => Ok src
  | None =>
      Raise (FileNotFoundError
               ("[Errno 2] No such file or directory: '" ++ csv_file ++ "'")%string)
  end.

(** [row[column]] *)
Definition row_item (r : row) (column : option string) : result cell :=
  match column with
  | Some c =>
      match dict_get String.eqb r c with
      | Some v => Ok v
      | None => Raise (KeyError column)
      end
  | None => Raise (KeyError None)
  end.

(** [row.get(column, default)] *)
Definition row_get (r : row) (column : option string) (default : cell) : cell :=
  match column with
  | Some c =>
      match dict_get String.eqb r c with
      | Some v => v
      | None => default
      end
  | None => default
  end.

(** ** _validate_csv_and_columns

    A file either exists, with the records [csv.reader] yields for it, or
    does not: the other failures of [open] (a directory, a missing
    permission) and a [csv.Error] of the tokenizer while the header is
    read have no counterpart here. *)

Definition msg_not_csv (csv_file : string) : string :=
  ("The file '" ++ csv_file ++ "' is not a valid CSV file.")%string.
Definition msg_empty (csv_file : string) : string :=
  ("The CSV file '" ++ csv_file ++ "' is empty.")%string.
Definition msg_not_found (csv_file : string) : string :=
  ("The file '" ++ csv_file ++ "' does not exist.")%string.
Definition msg_empty_column : string :=
  "The target column name cannot be empty or null.".
Definition msg_no_column (column : string) : string :=
  ("The specified column '" ++ column ++ "' does not exist in the CSV file.")%string.

(** [not column or column.strip() == ""]; [None] is Python's [None]. *)
Definition column_blank (column : option string) : bool :=
  match column with
  | None => true
  | Some s => negb (PyStr.truthy s) || String.eqb (PyStr.strip s) ""
  end.

(** [column in reader.fieldnames] *)
Definition column_in (column : option string) (fn : list string) : bool :=
  match column with
  | None => false
  | Some s => existsb (String.eqb s) fn
  end.

Definition column_text (column : option string) : string :=
  match column with
  | Some s => s
  | None => "None"
  end.

(** The [for column in required_columns] loop. *)
Fixpoint check_columns (fn : list string) (required_columns : list (option string))
  : result unit :=
  match required_columns with
  | [] => Ok tt
  | column :: rest =>
      if column_blank column then Raise (ValueError msg_empty_column)
      else if negb (column_in column fn)
           then Raise (ValueError (msg_no_column (column_text column)))
           else check_columns fn rest
  end.

Definition _validate_csv_and_columns
  (fs : filesystem) (csv_file : string) (required_columns : list (option string))
  : result unit :=
  if negb (PyStr.endswith (PyStr.lower csv_file) ".csv")
  then Raise (ValueError (msg_not_csv csv_file))
  else
    match fs csv_file with
    | None => Raise (FileNotFoundError (msg_not_found csv_file))
    | Some src =>
        match Csv.fieldnames src with
        | None | Some [] => Raise (ValueError (msg_empty csv_file))
        | Some fn => check_columns fn required_columns
        end
    end.

(** ** sorted, sets and counters *)

Section Sorted.
Context {A : Type} (le : A -> A -> bool).

(** Insertion in front of the first element that [x] may precede. *)
Fixpoint insert_sorted (x : A) (l : list A) : list A :=
  match l with
  | [] => [x]
  | y :: l' => if le x y then x :: l else y :: insert_sorted x l'
  end.

(** [sorted(l)] as a stable sort: elements that compare equal keep
    their relative order. *)
Definition sorted (l : list A) : list A := fold_right insert_sorted [] l.

(** The order as a proposition. *)
Definition le_prop (a b : A) : Prop := le a b = true.
End Sorted.

(** [unique_values.add(value)] on a set kept as a duplicate-free list. *)
Definition set_add (x : string) (s : list string) : list string :=
  if existsb (String.eqb x) s then s else s ++ [x].

(** Aggregate keys are tuples of cells. *)
Fixpoint key_eqb (a b : list cell) : bool :=
  match a, b with
  | [], [] => true
  | x :: a', y :: b' => cell_eqb x y && key_eqb a' b'
  | _, _ => false
  end.

(** [key=lambda item: item[1], reverse=True] *)
Definition by_count_desc {K : Type} (a b : K * Z) : bool := snd b <=? snd a.

(** [count_data[key] += 1] on a [Counter] *)
Definition counter_incr (count_data : @dict (list cell) Z) (key : list cell)
  : @dict (list cell) Z :=
  let old := match dict_get key_eqb count_data key with
             | Some c => c
             | None => 0
             end in
  dict_set key_eqb count_data key (old + 1).

(** [Counter.most_common(n)], which is [heapq.nlargest(n, items, key=count)]:
    the first [n] items of the stable descending sort, nothing for [n <= 0]. *)
Definition most_common {K : Type} (c : @dict K Z) (n : Z) : list (K * Z) :=
  if n <=? 0 then [] else firstn (Z.to_nat n) (sorted by_count_desc c).

(** ** extract_unique_values

    Here and in the three operations below, the handler
    [except csv.Error: raise ValueError] has no counterpart: a source is a
    sequence of records that the tokenizer has already produced. *)

Definition normalize_value (normalize lowercase : bool) (value : string) : string :=
  let value := if normalize then PyStr.replace_space value else value in
  if lowercase then PyStr.lower value else value.

(** Body of the [for row in reader] loop. *)
Definition unique_step (target_column : option string) (normalize lowercase : bool)
  (unique_values : list string) (r : row) : list string :=
  match row_get r target_column (CStr "") with
  | CStr value =>
      if PyStr.truthy value
      then set_add (normalize_value normalize lowercase value) unique_values
      else unique_values
  | CNone => unique_values
  end.

Definition extract_unique_values (fs : filesystem) (csv_file : string)
  (target_column : option string) (normalize lowercase : bool)
  : result (list string) :=
  _validate_csv_and_columns fs csv_file [target_column] ;;;
  src <- open_reader fs csv_file ;;
  Ok (sorted String.leb
        (fold_left (unique_step target_column normalize lowercase) (Csv.rows src) [])).

(** ** count_by_columns *)

Definition msg_no_replace : string :=
  "'NoneType' object has no attribute 'replace'".

(** [v.replace(" ", "")] on a cell *)
Definition cell_replace_space (v : cell) : result cell :=
  match v with
  | CStr s => Ok (CStr (PyStr.replace_space s))
  | CNone => Raise (AttributeError msg_no_replace)
  end.

Definition cell_lower (v : cell) : cell :=
  match v with
  | CStr s => CStr (PyStr.lower s)
  | CNone => CNone
  end.

(** One component of the key tuple:
    [row[column].replace(" ", "").lower() if lowercase
     else row[column].replace(" ", "") if normalize else row[column]]. *)
Definition key_component (normalize lowercase : bool) (r : row)
  (column : option string) : result cell :=
  if lowercase then
    v <- row_item r column ;; w <- cell_replace_space v ;; Ok (cell_lower w)
  else if normalize then
    v <- row_item r column ;; cell_replace_space v
  else row_item r column.

Definition group_key (normalize lowercase : bool)
  (group_by_columns : list (option string)) (r : row) : result (list cell) :=
  mapM (key_component normalize lowercase r) group_by_columns.

Definition count_step (normalize lowercase : bool)
  (group_by_columns : list (option string))
  (count_data : @dict (list cell) Z) (r : row) : result (@dict (list cell) Z) :=
  key <- group_key normalize lowercase group_by_columns r ;;
  Ok (counter_incr count_data key).

Definition count_by_columns (fs : filesystem) (csv_file : string)
  (group_by_columns : list (option string)) (normalize lowercase : bool)
  : result (@dict (list cell) Z) :=
  _validate_csv_and_columns fs csv_file group_by_columns ;;;
  src <- open_reader fs csv_file ;;
  count_data <- foldM (count_step normalize lowercase group_by_columns)
                      (Csv.rows src) [] ;;
  Ok (dict_of_pairs key_eqb (sorted by_count_desc count_data)).

(** ** top_n_values *)

(** [k[0]] *)
Definition first_of (k : list cell) : result cell :=
  match k with
  | c :: _ => Ok c
  | [] => Raise (IndexError "tuple index out of range")
  end.

Definition collapse_item (kv : list cell * Z) : result (cell * Z) :=
  k0 <- first_of (fst kv) ;; Ok (k0, snd kv).

Definition top_n_values (fs : filesystem) (csv_file : string)
  (target_column : option string) (n : Z) (normalize lowercase : bool)
  : result (list (cell * Z)) :=
  _validate_csv_and_columns fs csv_file [target_column] ;;;
  count_data <- count_by_columns fs csv_file [target_column] normalize lowercase ;;
  items <- mapM collapse_item count_data ;;
  let value_counter := dict_of_pairs cell_eqb items in
  Ok (most_common value_counter n).

(** ** datetime and strptime *)

Record datetime : Type := mk_datetime {
  year : Z; month : Z; day : Z; hour : Z; minute : Z
}.

(** The calendar date of a timestamp ([datetime.date()]). *)
Definition date_of (t : datetime) : Z * Z * Z := (year t, month t, day t).

Definition lex_leb (a b : list Z) : bool :=
  (fix go (a b : list Z) : bool :=
     match a, b with
     | x :: a', y :: b' => (x <? y) || ((x =? y) && go a' b')
     | _, _ => true
     end) a b.

(** [a <= b] on [datetime] values. *)
Definition datetime_leb (a b : datetime) : bool :=
  lex_leb [year a; month a; day a; hour a; minute a]
          [year b; month b; day b; hour b; minute b].

(** [a <= b] on calendar dates. *)
Definition date_leb (a b : Z * Z * Z) : bool :=
  let '(ya, ma, da) := a in
  let '(yb, mb, db) := b in
  lex_leb [ya; ma; da] [yb; mb; db].

Module Strptime.

Definition digit_val (c : ascii) : Z := Z.of_N (N_of_ascii c) - 48.

(** Longest prefix of decimal digits, and what follows it. *)
Fixpoint span_digits (s : string) : string * string :=
  match s with
  | EmptyString => (EmptyString, EmptyString)
  | String c s' =>
      if PyStr.isdigit c
      then let (d, r) := span_digits s' in (String c d, r)
      else (EmptyString, s)
  end.

Fixpoint int_acc (acc : Z) (ds : string) : Z :=
  match ds with
  | EmptyString => acc
  | String c ds' => int_acc (acc * 10 + digit_val c) ds'
  end.

(** [int(ds)] on a string of digits. *)
Definition int_of (ds : string) : Z := int_acc 0 ds.

(** A directive of one or two digits whose value lies in [[lo, hi]]:
    [%m] is [1[0-2]|0[1-9]|[1-9]], [%H] is [2[0-3]|[0-1]\d|\d] and
    [%M] is [[0-5]\d|\d]; each is followed by a non-digit or the end. *)
Definition field12 (lo hi : Z) (s : string) : option (Z * string) :=
  let (ds, rest) := span_digits s in
  let n := String.length ds in
  if ((Nat.eqb n 1) || (Nat.eqb n 2)) && (lo <=? int_of ds) && (int_of ds <=? hi)
  then Some (int_of ds, rest) else None.

(** [%d] is [3[0-1]|[1-2]\d|0[1-9]|[1-9]| [1-9]]: as above, or a space
    and one digit from 1 to 9. *)
Definition field_day (s : string) : option (Z * string) :=
  match s with
  | String " " s' =>
      let (ds, rest) := span_digits s' in
      if Nat.eqb (String.length ds) 1 && (1 <=? int_of ds)
      then Some (int_of ds, rest) else None
  | _ => field12 1 31 s
  end.

(** [%Y] is [\d\d\d\d]. *)
Definition field_year (s : string) : option (Z * string) :=
  let (ds, rest) := span_digits s in
  if Nat.eqb (String.length ds) 4 then Some (int_of ds, rest) else None.

(** A literal character of the format. *)
Definition literal (c : ascii) (s : string) : option string :=
  match s with
  | String c' s' => if Ascii.eqb c' c then Some s' else None
  | EmptyString => None
  end.

(** A blank of the format, which matches [\s+]. *)
Definition spaces (s : string) : option string :=
  match s with
  | String c s' => if PyStr.isspace c then Some (PyStr.lstrip s') else None
  | EmptyString => None
  end.

Definition is_leap (y : Z) : bool :=
  ((y mod 4 =? 0) && negb (y mod 100 =? 0)) || (y mod 400 =? 0).

Definition days_in_month (y m : Z) : Z :=
  if m =? 2 then (if is_leap y then 29 else 28)
  else if (m =? 4) || (m =? 6) || (m =? 9) || (m =? 11) then 30
  else 31.

(** The check made when the calendar date is built: years start at 1 and
    the day exists in the month. *)
Definition valid_date (y m d : Z) : bool :=
  (1 <=? y) && (d <=? days_in_month y m).

Definition obind {A B : Type} (o : option A) (f : A -> option B) : option B :=
  match o with
  | Some a => f a
  | None => None
  end.

(** The prefix [%m/%d/%Y] shared by both formats. *)
Definition month_day_year (s : string) : option (Z * Z * Z * string) :=
  obind (field12 1 12 s) (fun '(m, s1) =>
  obind (literal "/" s1) (fun s2 =>
  obind (field_day s2) (fun '(d, s3) =>
  obind (literal "/" s3) (fun s4 =>
  obind (field_year s4) (fun '(y, s5) =>
  Some (y, m, d, s5)))))).

(** [datetime.strptime(s, "%m/%d/%Y")]; [None] stands for [ValueError]. *)
Definition date (s : string) : option datetime :=
  obind (month_day_year s) (fun '(y, m, d, rest) =>
  if String.eqb rest "" && valid_date y m d
  then Some (mk_datetime y m d 0 0) else None).

(** [datetime.strptime(s, "%m/%d/%Y %H:%M")]; [None] stands for
    [ValueError]. *)
Definition timestamp (s : string) : option datetime :=
  obind (month_day_year s) (fun '(y, m, d, s1) =>
  obind (spaces s1) (fun s2 =>
  obind (field12 0 23 s2) (fun '(h, s3) =>
  obind (literal ":" s3) (fun s4 =>
  obind (field12 0 59 s4) (fun '(mi, rest) =>
  if String.eqb rest "" && valid_date y m d
  then Some (mk_datetime y m d h mi) else None))))).

End Strptime.

Definition fmt_date : string := "%m/%d/%Y".

(** [datetime.strptime(s, "%m/%d/%Y")] for a window bound: the library's
    [ValueError] propagates to the caller. *)
Definition strptime_bound (s : string) : result datetime :=
  match Strptime.date s with
  | Some d => Ok d
  | None => Raise (StrptimeValueError s fmt_date)
  end.

(** ** values_in_date_range *)

Definition column_eqb (a b : option string) : bool :=
  match a, b with
  | Some s, Some t => String.eqb s t
  | None, None => true
  | _, _ => false
  end.

Definition projection := @dict (option string) cell.

Definition msg_bad_date (date_column : option string) (date_value : string) : string :=
  ("Invalid date format in column '" ++ column_text date_column ++ "': "
     ++ date_value)%string.

(** [result = {col: row[col] for col in target_columns}] followed by
    [result[date_column] = date_value]. *)
Definition project (date_column : option string)
  (target_columns : list (option string)) (r : row) (date_value : cell)
  : result projection :=
  items <- mapM (fun col => v <- row_item r col ;; Ok (col, v)) target_columns ;;
  Ok (dict_set column_eqb (dict_of_pairs column_eqb items) date_column date_value).

(** Body of the [for row in reader] loop. *)
Definition range_step (date_column : option string)
  (target_columns : list (option string)) (start end_ : datetime)
  (results_in_range : list projection) (r : row) : result (list projection) :=
  date_value <- row_item r date_column ;;
  match date_value with
  | CStr s =>
      if PyStr.truthy s then
        match Strptime.timestamp s with
        | Some date_obj =>
            if datetime_leb start date_obj && datetime_leb date_obj end_
            then
              p <- project date_column target_columns r date_value ;;
              Ok (results_in_range ++ [p])
            else Ok results_in_range
        | None => Raise (ValueError (msg_bad_date date_column s))
        end
      else Ok results_in_range
  | CNone => Ok results_in_range
  end.

Definition values_in_date_range (fs : filesystem) (csv_file : string)
  (date_column : option string) (start_date end_date : string)
  (target_columns : list (option string)) : result (list projection) :=
  _validate_csv_and_columns fs csv_file (date_column :: target_columns) ;;;
  src <- open_reader fs csv_file ;;
  start <- strptime_bound start_date ;;
  end_ <- strptime_bound end_date ;;
  foldM (range_step date_column target_columns start end_) (Csv.rows src) [].

(** ** The dataframe twin of unique-value extraction

    [extract_unique_values_pandas] is embedded over a model of the few
    pandas operations it calls.  The model of [pd.read_csv] covers text
    columns only (columns with a field that is neither a number nor a
    boolean, which pandas keeps as Python strings): a field listed among the
    default missing-value markers becomes [NaN], every other field is kept
    as it is, and a record too short to reach the column yields [NaN]. *)

Module Pandas.

Inductive value : Type :=
| Str (s : string)
| NaN.

Definition na_values : list string :=
  [ EmptyString; "#N/A"; "#N/A N/A"; "#NA"; "-1.#IND"; "-1.#QNAN"; "-NaN";
    "-nan"; "1.#IND"; "1.#QNAN"; "<NA>"; "N/A"; "NA"; "NULL"; "NaN"; "None";
    "n/a"; "nan"; "null" ].

Definition read_field (s : string) : value :=
  if existsb (String.eqb s) na_values then NaN else Str s.

Fixpoint index_of (column : string) (fn : list string) : option nat :=
  match fn with
  | [] => None
  | c :: fn' =>
      if String.eqb c column then Some O
      else option_map S (index_of column fn')
  end.

(** [pd.read_csv(csv_file)[column]] for a text column. *)
Definition read_column (src : source) (column : string) : list value :=
  match src with
  | [] => []
  | fn :: recs =>
      match index_of column fn with
      | None => []
      | Some i =>
          map (fun r => match nth_error r i with
                        | Some s => read_field s
                        | None => NaN
                        end)
              (filter (fun r => negb (Csv.is_blank r)) recs)
      end
  end.

(** [.dropna().astype(str)] *)
Fixpoint dropna (col : list value) : list string :=
  match col with
  | [] => []
  | Str s :: col' => s :: dropna col'
  | NaN :: col' => dropna col'
  end.

(** [.unique()]: the distinct values in order of first appearance. *)
Definition unique (l : list string) : list string :=
  fold_left (fun acc x => set_add x acc) l [].

Definition extract_unique_values_pandas (fs : filesystem) (csv_file : string)
  (target_column : option string) (normalize lowercase : bool)
  : result (list string) :=
  _validate_csv_and_columns fs csv_file [target_column] ;;;
  src <- open_reader fs csv_file ;;
  let unique_values :=
    map PyStr.strip (dropna (read_column src (column_text target_column))) in
  let unique_values :=
    if normalize then map PyStr.replace_space unique_values else unique_values in
  let unique_values :=
    if lowercase then map PyStr.lower unique_values else unique_values in
  Ok (sorted String.leb (unique unique_values)).

End Pandas.

(** ** Vocabulary of the specification *)

(** The window test at calendar-date granularity: the date component of
    the timestamp lies within the two bounds, the time of day is ignored. *)
Definition qualifies_by_date (start end_ t : datetime) : bool :=
  date_leb (date_of start) (date_of t) && date_leb (date_of t) (date_of end_).

(** The validation order as the specification words it: every required
    name is tested for emptiness before any name is looked up in the
    header. *)
Definition validate_in_stated_order
  (fs : filesystem) (csv_file : string) (required_columns : list (option string))
  : result unit :=
  if negb (PyStr.endswith (PyStr.lower csv_file) ".csv")
  then Raise (ValueError (msg_not_csv csv_file))
  else
    match fs csv_file with
    | None => Raise (FileNotFoundError (msg_not_found csv_file))
    | Some src =>
        match Csv.fieldnames src with
        | None | Some [] => Raise (ValueError (msg_empty csv_file))
        | Some fn =>
            if existsb column_blank required_columns
            then Raise (ValueError msg_empty_column)
            else
              match find (fun c => negb (column_in c fn)) required_columns with
              | Some c => Raise (ValueError (msg_no_column (column_text c)))
              | None => Ok tt
              end
        end
    end.

(** A string free of whitespace characters. *)
Fixpoint no_whitespace (s : string) : bool :=
  match s with
  | EmptyString => true
  | String c s' => negb (PyStr.isspace c) && no_whitespace s'
  end.

(** A string made of space characters only. *)
Fixpoint only_spaces (s : string) : bool :=
  match s with
  | EmptyString => true
  | String c s' => Ascii.eqb c " " && only_spaces s'
  end.

(** The distinct elements of a scan in the order in which they are first
    met. *)
Definition first_seen {K : Type} (keqb : K -> K -> bool) (l : list K) : list K :=
  fold_left (fun acc k => if existsb (keqb k) acc then acc else acc ++ [k]) l [].

(** [a] stands before [b] in [l]. *)
Definition before {A : Type} (l : list A) (a b : A) : Prop :=
  exists l1 l2 l3, l = l1 ++ a :: l2 ++ b :: l3.

(** The keys of the rows of a source, in scan order. *)
Definition scan_keys (normalize lowercase : bool)
  (group_by_columns : list (option string)) (src : source)
  : result (list (list cell)) :=
  mapM (group_key normalize lowercase group_by_columns) (Csv.rows src).

(** The date cell of a row is empty or missing. *)
Definition date_empty (date_column : option string) (r : row) : bool :=
  match row_item r date_column with
  | Ok v => negb (cell_truthy v)
  | Raise _ => false
  end.

(** The date cell of a row is a non-empty string that does not parse. *)
Definition date_malformed (date_column : option string) (r : row) : option string :=
  match row_item r date_column with
  | Ok (CStr s) =>
      if PyStr.truthy s
      then match Strptime.timestamp s with
           | Some _ => None
           | None => Some s
           end
      else None
  | _ => None
  end.

Fixpoint first_malformed (date_column : option string) (rs : list row)
  : option string :=
  match rs with
  | [] => None
  | r :: rs' =>
      match date_malformed date_column r with
      | Some s => Some s
      | None => first_malformed date_column rs'
      end
  end.

Definition sum_counts {K : Type} (d : @dict K Z) : Z :=
  fold_right Z.add 0 (map snd d).

(** The first required column, in list order, that is blank or absent
    from the header. *)
Definition first_offending (fn : list string) (cols : list (option string))
  : option (option string) :=
  find (fun c => column_blank c || negb (column_in c fn)) cols.

(** Strict ordinal order on strings. *)
Definition str_lt (a b : string) : Prop := String.compare a b = Lt.

(** A singleton-tuple key collapsed back to its bare value. *)
Definition bare_value (kv : list cell * Z) : cell * Z :=
  (hd CNone (fst kv), snd kv).

(** Descending order of counts. *)
Definition count_ge (a b : cell * Z) : Prop := snd b <= snd a.

(** ** Sample sources *)

Definition one_file (name : string) (src : source) : filesystem :=
  fun f => if String.eqb f name then Some src else None.

Definition tab : ascii := ascii_of_nat 9.

Definition licenses : source :=
  [ ["LicenseType"; "Breed"; "DogName"; "ValidDate"];
    ["Dog Individual Male"; "DACHSHUND"; "REX"; "12/31/2016 23:59"];
    ["Dog Individual Spayed Female"; "SCHNOODLE"; "RILEY"; "1/4/2017 8:39"];
    ["Dog Individual Spayed Female"; "BICHON FRISE"; "LULU"; "2/4/2017 8:39"] ].

Definition whitespaces : source :=
  [ ["Breed"]; [" CHIHUAHUA"]; ["Bichon Frise"]; [" LAB   MIX"] ].

Definition ragged : source :=
  [ ["Breed"; "LicenseType"]; ["DACHSHUND"; "Dog Individual Male"]; ["SCHNOODLE"] ].

Definition blank_breed : source :=
  [ ["Breed"]; [" "]; ["DACHSHUND"] ].

Definition tabbed : source :=
  [ ["Breed"]; [String "L" (String "A" (String "B" (String tab "MIX")))] ].

Definition bad_date : source :=
  [ ["DogName"; "ValidDate"]; ["REX"; "1/4/2017 8:39"]; ["LULU"; "yesterday"] ].

Definition licenses_fs : filesystem := one_file "licenses.csv" licenses.
Definition whitespaces_fs : filesystem := one_file "whitespaces.csv" whitespaces.
Definition ragged_fs : filesystem := one_file "ragged.csv" ragged.
Definition blank_breed_fs : filesystem := one_file "blank_breed.csv" blank_breed.
Definition tabbed_fs : filesystem := one_file "tabbed.csv" tabbed.
Definition bad_date_fs : filesystem := one_file "bad_date.csv" bad_date.

(** ** Further vocabulary *)

(** Number of scanned keys equal to [k]. *)
Definition key_count (ks : list (list cell)) (k : list cell) : Z :=
  Z.of_nat (List.length (filter (key_eqb k) ks)).

(** Some grouped cell of the row is [None]. *)
Definition row_has_none (cols : list (option string)) (r : row) : bool :=
  existsb (fun col => match row_item r col with
                      | Ok CNone => true
                      | _ => false
                      end) cols.

(** The date cell of the row parses to a timestamp between the bounds,
    both compared as [datetime] values. *)
Definition in_window (date_column : option string) (start end_ : datetime)
  (r : row) : bool :=
  match row_item r date_column with
  | Ok (CStr s) =>
      PyStr.truthy s
      && match Strptime.timestamp s with
         | Some t => datetime_leb start t && datetime_leb t end_
         | None => false
         end
  | _ => false
  end.

(** The projection built for a row all of whose requested cells exist. *)
Definition projection_of (date_column : option string)
  (target_columns : list (option string)) (r : row) : projection :=
  dict_set column_eqb
    (dict_of_pairs column_eqb
       (map (fun col => (col, row_get r col CNone)) target_columns))
    date_column (row_get r date_column CNone).

(** A [ValueError], raised by the module itself or by [strptime]. *)
Definition value_error (e : exn) : bool :=
  match e with
  | ValueError _ | StrptimeValueError _ _ => true
  | _ => false
  end.

(** A string with its space characters (U+0020) deleted and every other
    character, whitespace included, kept in place. *)
Definition without_spaces (s : string) : string :=
  string_of_list_ascii
    (filter (fun c => negb (Ascii.eqb c " ")) (list_ascii_of_string s)).

(** What a raw value becomes under [normalize=True]. *)
Definition normalized (lowercase : bool) (s : string) : string :=
  if lowercase then PyStr.lower (without_spaces s) else without_spaces s.

(** An upper-case letter of the ASCII range. *)
Definition ascii_upper (c : ascii) : bool :=
  let n := N_of_ascii c in ((65 <=? n) && (n <=? 90))%N.

Fixpoint has_ascii_upper (s : string) : bool :=
  match s with
  | EmptyString => false
  | String c s' => ascii_upper c || has_ascii_upper s'
  end.

(** * from_flat_file: insert_with_retry

    The loop of [insert_with_retry] is embedded over an engine that tells
    what each pass through the [try] body does; the effects of the loop
    (connection attempts, warnings, sleeps) are collected in a trace. *)

Module FromFlatFile.

(** What one pass through the [try] body does: the rows are appended, or
    the body raises an exception of class [sqlite3.OperationalError] with
    the given text, or it raises an exception of another class.  An error
    that SQLAlchemy wraps in its own [sqlalchemy.exc.OperationalError] is
    of another class: the handler does not catch it. *)
Inductive attempt_outcome : Type :=
| Inserted
| OperationalError (msg : string)
| OtherException (name : string).

Definition engine : Type := nat -> attempt_outcome.

Inductive event : Type :=
| Connect
| LogWarning (delay : Z)
| Sleep (delay : Z).

(** How the call ends. *)
Inductive outcome : Type :=
| Returned
| Reraised (msg : string)
| Propagated (name : string)
| SleepValueError
| Failed (msg : string).
(* [Reraised] is the bare [raise] of the handler, [Propagated] an exception
   the handler does not catch, [SleepValueError] the [ValueError] of
   [time.sleep] for a negative delay, [Failed] the final [Exception]. *)

Definition msg_failed : string :=
  "Failed to insert data after retries due to locked database.".

(** [needle in hay] on strings *)
Fixpoint str_in (needle hay : string) : bool :=
  String.prefix needle hay
  || match hay with
     | EmptyString => false
     | String _ hay' => str_in needle hay'
     end.

(** [for attempt in range(retries)], from attempt number [attempt] with
    [remaining] iterations to go. *)
Fixpoint attempts (db : engine) (delay : Z) (remaining attempt : nat)
  : list event * outcome :=
  match remaining with
  | O => ([], Failed msg_failed)
  | S remaining' =>
      match db attempt with
      | Inserted => ([Connect], Returned)
      | OperationalError msg =>
          if str_in "database is locked" msg then
            if delay <? 0 then ([Connect; LogWarning delay], SleepValueError)
            else
              let (tr, out) := attempts db delay remaining' (S attempt) in
              (Connect :: LogWarning delay :: Sleep delay :: tr, out)
          else ([Connect], Reraised msg)
      | OtherException name => ([Connect], Propagated name)
      end
  end.

Definition insert_with_retry (db : engine) (retries delay : Z)
  : list event * outcome :=
  attempts db delay (Z.to_nat retries) 0.

(** The case the handler retries: the body raises
    [sqlite3.OperationalError] and the text of the exception contains
    [database is locked]. *)
Definition retried (o : attempt_outcome) : bool :=
  match o with
  | OperationalError msg => str_in "database is locked" msg
  | _ => false
  end.

(** How the call ends at an attempt that the handler does not retry. *)
Definition settle (o : attempt_outcome) : outcome :=
  match o with
  | Inserted => Returned
  | OperationalError msg => Reraised msg
  | OtherException name => Propagated name
  end.

(** Number of connection attempts in a trace. *)
Fixpoint connects (tr : list event) : nat :=
  match tr with
  | [] => O
  | Connect :: tr' => S (connects tr')
  | _ :: tr' => connects tr'
  end.

(** Total time slept in a trace. *)
Fixpoint slept (tr : list event) : Z :=
  match tr with
  | [] => 0
  | Sleep d :: tr' => d + slept tr'
  | _ :: tr' => slept tr'
  end.

(** An engine whose first [k] attempts raise
    [sqlite3.OperationalError("database is locked")] and whose later
    attempts behave as [o]. *)
Definition locked_then (k : nat) (o : attempt_outcome) : engine :=
  fun i => if Nat.ltb i k then OperationalError "database is locked" else o.

End FromFlatFile.

(** * Properties *)

(** ** The error monad *)

Lemma bind_Ok_inv {A B : Type} (m : result A) (f : A -> result B) (b : B) :
  bind m f = Ok b -> exists a, m = Ok a /\ f a = Ok b.
Proof.
  destruct m as [a|e]; simpl; intros H; [exists a; auto | discriminate].
Qed.

Lemma mapM_length {A B : Type} (f : A -> result B) (l : list A) (bs : list B) :
  mapM f l = Ok bs -> List.length bs = List.length l.
Proof.
  revert bs; induction l as [|a l IH]; simpl; intros bs H.
  - injection H as <-; reflexivity.
  - apply bind_Ok_inv in H as (b & _ & H).
    apply bind_Ok_inv in H as (bs' & Hbs & H).
    injection H as <-; simpl; f_equal; auto.
Qed.

Lemma mapM_all_Ok {A B : Type} (f : A -> result B) (g : A -> B) (l : list A) :
  (forall a, In a l -> f a = Ok (g a)) -> mapM f l = Ok (map g l).
Proof.
  induction l as [|a l IH]; simpl; intros H; [reflexivity|].
  rewrite (H a (or_introl eq_refl)); simpl.
  rewrite IH by (intros; apply H; auto); reflexivity.
Qed.

(** ** Decidable equalities *)

Lemma cell_eqb_spec (a b : cell) : reflect (a = b) (cell_eqb a b).
Proof.
  destruct a as [s|], b as [t|]; simpl; try (constructor; congruence).
  destruct (String.eqb_spec s t); constructor; congruence.
Qed.

Lemma key_eqb_spec (a b : list cell) : reflect (a = b) (key_eqb a b).
Proof.
  revert b; induction a as [|x a IH]; intros [|y b]; simpl;
    try (constructor; congruence).
  destruct (cell_eqb_spec x y); simpl; [|constructor; congruence].
  destruct (IH b); constructor; congruence.
Qed.

(** ** Dictionaries *)

Section DictFacts.
Context {K V : Type} (keqb : K -> K -> bool).
Hypothesis keqb_spec : forall a b, reflect (a = b) (keqb a b).

Lemma existsb_keqb (k : K) (l : list K) : existsb (keqb k) l = true <-> In k l.
Proof.
  rewrite existsb_exists; split.
  - intros (x & Hx & E). destruct (keqb_spec k x); [subst; auto | discriminate].
  - intros H; exists k; split; auto. destruct (keqb_spec k k); congruence.
Qed.

Lemma existsb_keqb_false (k : K) (l : list K) :
  existsb (keqb k) l = false <-> ~ In k l.
Proof.
  rewrite <- existsb_keqb. destruct (existsb (keqb k) l); split; congruence.
Qed.

Lemma keys_dict_set (d : @dict K V) (k : K) (v : V) :
  map fst (dict_set keqb d k v)
  = if existsb (keqb k) (map fst d) then map fst d else map fst d ++ [k].
Proof.
  induction d as [|[k' v'] d IH]; simpl; [reflexivity|].
  destruct (keqb k k'); simpl; [reflexivity|].
  rewrite IH. destruct (existsb (keqb k) (map fst d)); reflexivity.
Qed.

Lemma dict_get_In (d : @dict K V) (k : K) :
  In k (map fst d) -> exists v, dict_get keqb d k = Some v.
Proof.
  induction d as [|[k0 v0] d IH]; simpl; [tauto|].
  intros [->|H].
  - destruct (keqb_spec k k); [eauto | congruence].
  - destruct (keqb k k0); eauto.
Qed.

Lemma dict_set_fresh (d : @dict K V) (k : K) (v : V) :
  ~ In k (map fst d) -> dict_set keqb d k v = d ++ [(k, v)].
Proof.
  induction d as [|[k0 v0] d IH]; simpl; intros H; [reflexivity|].
  destruct (keqb_spec k k0) as [->|Hk]; [tauto|].
  rewrite IH by tauto; reflexivity.
Qed.

Lemma keys_dict_set_NoDup (d : @dict K V) (k : K) (v : V) :
  NoDup (map fst d) -> NoDup (map fst (dict_set keqb d k v)).
Proof.
  intros H. rewrite keys_dict_set.
  destruct (existsb (keqb k) (map fst d)) eqn:E; [assumption|].
  apply existsb_keqb_false in E.
  apply NoDup_app; auto.
  - constructor; [simpl; tauto | constructor].
  - intros x Hx [<-|[]]; tauto.
Qed.

Lemma fold_dict_set_NoDup (l acc : list (K * V)) :
  NoDup (map fst (acc ++ l)) ->
  fold_left (fun d kv => dict_set keqb d (fst kv) (snd kv)) l acc = acc ++ l.
Proof.
  revert acc; induction l as [|[k v] l IH]; simpl; intros acc H.
  - symmetry; apply app_nil_r.
  - assert (Hk : ~ In k (map fst acc)).
    { rewrite map_app in H; simpl in H.
      apply NoDup_remove_2 in H. intros Hin; apply H; apply in_or_app; auto. }
    rewrite dict_set_fresh by assumption.
    rewrite IH; rewrite <- app_assoc; simpl; auto.
Qed.

Lemma dict_of_pairs_NoDup (l : list (K * V)) :
  NoDup (map fst l) -> dict_of_pairs keqb l = l.
Proof.
  intros H; unfold dict_of_pairs; rewrite fold_dict_set_NoDup; auto.
Qed.
End DictFacts.

(** ** Relative position in a list *)

Section Before.
Context {A : Type}.

Lemma before_cons (x a b : A) (l : list A) : before l a b -> before (x :: l) a b.
Proof.
  intros (l1 & l2 & l3 & ->). exists (x :: l1), l2, l3; reflexivity.
Qed.

Lemma before_head (a b : A) (l : list A) : In b l -> before (a :: l) a b.
Proof.
  intros H. apply in_split in H as (l2 & l3 & ->).
  exists [], l2, l3; reflexivity.
Qed.

Lemma before_inv_cons (x a b : A) (l : list A) :
  before (x :: l) a b -> (a = x /\ In b l) \/ before l a b.
Proof.
  intros ([|y l1] & l2 & l3 & E); simpl in E; injection E as -> ->.
  - left; split; auto. apply in_or_app; right; left; reflexivity.
  - right; exists l1, l2, l3; reflexivity.
Qed.

Lemma before_nil (a b : A) : ~ before [] a b.
Proof. intros ([|y l1] & l2 & l3 & E); discriminate. Qed.

Lemma before_In (a b : A) (l : list A) : before l a b -> In a l /\ In b l.
Proof.
  intros (l1 & l2 & l3 & ->); split.
  - apply in_or_app; right; left; reflexivity.
  - apply in_or_app; right; right. apply in_or_app; right; left; reflexivity.
Qed.

Lemma before_app_l (a b : A) (l l' : list A) : before l a b -> before (l ++ l') a b.
Proof.
  intros (l1 & l2 & l3 & ->). exists l1, l2, (l3 ++ l').
  repeat (rewrite <- app_assoc; simpl). reflexivity.
Qed.

Lemma before_firstn (n : nat) (a b : A) (l : list A) :
  before (firstn n l) a b -> before l a b.
Proof.
  intros H. rewrite <- (firstn_skipn n l). apply before_app_l, H.
Qed.
End Before.

Lemma before_map {A B : Type} (f : A -> B) (l : list A) (x y : B) :
  before (map f l) x y -> exists a b, x = f a /\ y = f b /\ before l a b.
Proof.
  induction l as [|c l IH]; simpl; intros H.
  - destruct (before_nil _ _ H).
  - apply before_inv_cons in H as [[-> Hy]|H].
    + apply in_map_iff in Hy as (b & <- & Hb).
      exists c, b; repeat split; apply before_head, Hb.
    + destruct (IH H) as (a & b & -> & -> & Hab).
      exists a, b; repeat split; apply before_cons, Hab.
Qed.

(** ** The stable sort *)

Section SortedFacts.
Context {A : Type} (le : A -> A -> bool).

Lemma insert_sorted_perm (x : A) (l : list A) :
  Permutation (insert_sorted le x l) (x :: l).
Proof.
  induction l as [|y l IH]; simpl; [reflexivity|].
  destruct (le x y); [reflexivity|].
  rewrite IH; apply perm_swap.
Qed.

Lemma sorted_perm (l : list A) : Permutation (sorted le l) l.
Proof.
  induction l as [|x l IH]; simpl; [reflexivity|].
  rewrite insert_sorted_perm; constructor; exact IH.
Qed.

Lemma sorted_In (x : A) (l : list A) : In x (sorted le l) <-> In x l.
Proof.
  split; apply Permutation_in; [|symmetry]; apply sorted_perm.
Qed.

Hypothesis le_total : forall a b, le a b = false -> le b a = true.

Lemma insert_sorted_Sorted (x : A) (l : list A) :
  Sorted (le_prop le) l -> Sorted (le_prop le) (insert_sorted le x l).
Proof.
  induction l as [|y l IH]; simpl; intros H.
  - repeat constructor.
  - destruct (le x y) eqn:E.
    + constructor; [assumption | constructor; exact E].
    + inversion H as [|? ? Hs Hh]; subst.
      constructor; [auto|].
      destruct l as [|z l]; simpl.
      * constructor; apply le_total, E.
      * destruct (le x z); constructor.
        -- apply le_total, E.
        -- inversion Hh; assumption.
Qed.

Lemma sorted_Sorted (l : list A) : Sorted (le_prop le) (sorted le l).
Proof.
  induction l as [|x l IH]; simpl; [constructor|].
  apply insert_sorted_Sorted, IH.
Qed.

(** Sorting a list that is already in order changes nothing. *)
Lemma sorted_id (l : list A) : Sorted (le_prop le) l -> sorted le l = l.
Proof.
  induction l as [|x l IH]; simpl; intros H; [reflexivity|].
  inversion H as [|? ? Hs Hh]; subst.
  rewrite IH by assumption.
  destruct l as [|y l]; simpl; [reflexivity|].
  inversion Hh as [|? ? E]; subst. unfold le_prop in E; rewrite E; reflexivity.
Qed.

Lemma before_insert_sorted (x a b : A) (s : list A) :
  before (insert_sorted le x s) a b ->
  (a = x /\ In b s) \/ (b = x /\ In a s /\ le x a = false) \/ before s a b.
Proof.
  induction s as [|y s IH]; simpl; intros H.
  - apply before_inv_cons in H as [[_ []]|H]; destruct (before_nil _ _ H).
  - destruct (le x y) eqn:E.
    + apply before_inv_cons in H as [[-> Hb]|H]; auto.
    + apply before_inv_cons in H as [[-> Hb]|H].
      * apply (Permutation_in _ (insert_sorted_perm x s)) in Hb.
        destruct Hb as [<-|Hb].
        -- right; left; repeat split; simpl; auto.
        -- right; right; apply before_head, Hb.
      * destruct (IH H) as [[-> Hb]|[(-> & Ha & Hx)|Hs]].
        -- left; split; simpl; auto.
        -- right; left; repeat split; simpl; auto.
        -- right; right; apply before_cons, Hs.
Qed.

(** Stability: two elements that tie, or that the order would rather
    swap, stand in the output as they stood in the input. *)
Lemma sorted_stable (a b : A) (l : list A) :
  before (sorted le l) a b -> le b a = true -> before l a b.
Proof.
  induction l as [|x l IH]; simpl; intros H Hba.
  - destruct (before_nil _ _ H).
  - apply before_insert_sorted in H as [[-> Hb]|[(-> & Ha & Hx)|Hs]].
    + apply before_head, sorted_In, Hb.
    + congruence.
    + apply before_cons, IH; assumption.
Qed.
End SortedFacts.

(** ** Rows of a validated source *)

Lemma keys_dict_set_mono {V : Type} (d : @dict string V) (k s : string) (v : V) :
  In s (map fst d) -> In s (map fst (dict_set String.eqb d k v)).
Proof.
  intros H. rewrite keys_dict_set.
  destruct (existsb (String.eqb k) (map fst d)); auto.
  apply in_or_app; auto.
Qed.

Lemma keys_dict_set_new {V : Type} (d : @dict string V) (k : string) (v : V) :
  In k (map fst (dict_set String.eqb d k v)).
Proof.
  rewrite keys_dict_set.
  destruct (existsb (String.eqb k) (map fst d)) eqn:E.
  - apply (existsb_keqb String.eqb String.eqb_spec), E.
  - apply in_or_app; right; left; reflexivity.
Qed.

Lemma keys_fold_pairs {V : Type} (l acc : list (string * V)) (s : string) :
  In s (map fst acc) \/ In s (map fst l) ->
  In s (map fst (fold_left (fun d kv => dict_set String.eqb d (fst kv) (snd kv)) l acc)).
Proof.
  revert acc; induction l as [|[k v] l IH]; simpl; intros acc H.
  - tauto.
  - apply IH. destruct H as [H|[<-|H]]; auto.
    + left; apply keys_dict_set_mono, H.
    + left; apply keys_dict_set_new.
Qed.

Lemma keys_fold_restval (ks : list string) (d : row) (s : string) :
  In s (map fst d) \/ In s ks ->
  In s (map fst (fold_left (fun d k => dict_set String.eqb d k CNone) ks d)).
Proof.
  revert d; induction ks as [|k ks IH]; simpl; intros d H.
  - tauto.
  - apply IH. destruct H as [H|[<-|H]]; auto.
    + left; apply keys_dict_set_mono, H.
    + left; apply keys_dict_set_new.
Qed.

Lemma keys_combine {B : Type} (fn : list string) (l : list B) :
  map fst (combine fn l) = firstn (List.length l) fn.
Proof.
  revert l; induction fn as [|k fn IH]; intros [|b l]; simpl; auto.
  f_equal; apply IH.
Qed.

(** Every header name is a key of every row dictionary. *)
Lemma make_row_keys (fn r : list string) (s : string) :
  In s fn -> In s (map fst (Csv.make_row fn r)).
Proof.
  intros H. unfold Csv.make_row.
  apply keys_fold_restval.
  rewrite <- (firstn_skipn (List.length r) fn) in H.
  apply in_app_or in H as [H|H]; auto.
  left. unfold dict_of_pairs. apply keys_fold_pairs; right.
  rewrite keys_combine, length_map. exact H.
Qed.

Lemma check_columns_Ok (fn : list string) (cols : list (option string)) (u : unit) :
  check_columns fn cols = Ok u ->
  forall c, In c cols -> exists s, c = Some s /\ In s fn.
Proof.
  induction cols as [|c0 cols IH]; simpl; intros H c Hc; [tauto|].
  destruct (column_blank c0) eqn:Hb; [discriminate|].
  destruct (column_in c0 fn) eqn:Hin; simpl in H; [|discriminate].
  destruct Hc as [<-|Hc]; auto.
  destruct c0 as [s|]; simpl in *; [|discriminate].
  exists s; split; auto.
  apply (existsb_keqb String.eqb String.eqb_spec), Hin.
Qed.

Lemma validate_Ok_inv (fs : filesystem) (csv_file : string)
  (cols : list (option string)) (u : unit) :
  _validate_csv_and_columns fs csv_file cols = Ok u ->
  exists fn recs, fs csv_file = Some (fn :: recs) /\ check_columns fn cols = Ok tt.
Proof.
  unfold _validate_csv_and_columns.
  destruct (negb _); [discriminate|].
  destruct (fs csv_file) as [[|fn recs]|]; simpl; try discriminate.
  destruct fn as [|c fn]; [discriminate|].
  intros H. exists (c :: fn), recs; split; auto.
  destruct (check_columns (c :: fn) cols) as [[]|]; [reflexivity | discriminate].
Qed.

Lemma row_item_make_row (fn r : list string) (s : string) :
  In s fn -> exists v, row_item (Csv.make_row fn r) (Some s) = Ok v.
Proof.
  intros H. apply (make_row_keys fn r) in H.
  apply (dict_get_In String.eqb String.eqb_spec) in H as (v & Hv).
  exists v; simpl; rewrite Hv; reflexivity.
Qed.

(** After validation, [row[column]] succeeds on every row. *)
Lemma rows_items (fn : list string) (recs : list (list string))
  (cols : list (option string)) :
  check_columns fn cols = Ok tt ->
  forall r c, In r (Csv.rows (fn :: recs)) -> In c cols ->
              exists v, row_item r c = Ok v.
Proof.
  intros Hc r c Hr Hin.
  destruct (check_columns_Ok _ _ _ Hc c Hin) as (s & -> & Hs).
  simpl in Hr. apply in_map_iff in Hr as (rec & <- & _).
  apply row_item_make_row, Hs.
Qed.

(** ** Behaviour on the sample sources *)

(** C1 (values_in_date_range, the window test).  The record of LULU is
    stamped [2/4/2017 8:39]; its calendar date is the end date of the
    window [1/4/2017 .. 2/4/2017], so it qualifies at calendar-date
    granularity.  The code compares the full timestamp with midnight of the
    end date, and returns the record of RILEY alone. *)
Theorem C1_end_date_row_dropped :
  (exists start end_ t,
      Strptime.date "1/4/2017" = Some start /\
      Strptime.date "2/4/2017" = Some end_ /\
      Strptime.timestamp "2/4/2017 8:39" = Some t /\
      qualifies_by_date start end_ t = true /\
      datetime_leb t end_ = false) /\
  values_in_date_range licenses_fs "licenses.csv" (Some "ValidDate")
    "1/4/2017" "2/4/2017" [Some "DogName"]
  = Ok [ [(Some "DogName", CStr "RILEY"); (Some "ValidDate", CStr "1/4/2017 8:39")] ].
Proof.
  split; [|reflexivity].
  exists (mk_datetime 2017 1 4 0 0), (mk_datetime 2017 2 4 0 0),
         (mk_datetime 2017 2 4 8 39).
  repeat split; reflexivity.
Qed.

(** C2 (count_by_columns, the two flags).  With [normalize=False] and
    [lowercase=True] the grouping keys are lower-cased and also lose their
    spaces, whereas extract_unique_values, under the same flags, lower-cases
    the values and keeps their spaces. *)
Theorem C2_lowercase_also_strips :
  count_by_columns whitespaces_fs "whitespaces.csv" [Some "Breed"] false true
  = Ok [ ([CStr "chihuahua"], 1); ([CStr "bichonfrise"], 1); ([CStr "labmix"], 1) ]
  /\ extract_unique_values whitespaces_fs "whitespaces.csv" (Some "Breed") false true
     = Ok [" chihuahua"; " lab   mix"; "bichon frise"].
Proof. split; reflexivity. Qed.

(** C4 (count_by_columns, missing cells).  A record shorter than the
    header leaves [None] in the row dictionary; with [normalize=True] the
    key expression calls [replace] on it and the call ends in an
    [AttributeError] instead of counting the two rows of the source. *)
Theorem C4_short_record_raises :
  List.length (Csv.rows ragged) = 2%nat /\
  count_by_columns ragged_fs "ragged.csv" [Some "LicenseType"] true false
  = Raise (AttributeError msg_no_replace).
Proof. split; reflexivity. Qed.

(** C9 (manual and dataframe twins).  Without normalization the manual
    extraction keeps the leading blank of a value, and the dataframe twin,
    which always strips both ends, does not: the two sorted lists differ. *)
Theorem C9_twins_differ :
  extract_unique_values whitespaces_fs "whitespaces.csv" (Some "Breed") false false
  = Ok [" CHIHUAHUA"; " LAB   MIX"; "Bichon Frise"]
  /\ Pandas.extract_unique_values_pandas whitespaces_fs "whitespaces.csv"
       (Some "Breed") false false
     = Ok ["Bichon Frise"; "CHIHUAHUA"; "LAB   MIX"].
Proof. split; reflexivity. Qed.

(** C6, as stated, fails: for the column list [["Absent"; ""]] the stated
    order reports the empty name, the code reports the absent one. *)
Lemma C6_stated_order_refuted :
  _validate_csv_and_columns whitespaces_fs "whitespaces.csv"
    [Some "Absent"; Some EmptyString]
  = Raise (ValueError (msg_no_column "Absent"))
  /\ validate_in_stated_order whitespaces_fs "whitespaces.csv"
       [Some "Absent"; Some EmptyString]
     = Raise (ValueError msg_empty_column)
  /\ _validate_csv_and_columns whitespaces_fs "whitespaces.csv"
       [Some "Absent"; Some EmptyString]
     <> validate_in_stated_order whitespaces_fs "whitespaces.csv"
          [Some "Absent"; Some EmptyString].
Proof. repeat split; try reflexivity. vm_compute; discriminate. Qed.

(** C7, as stated, fails: a cell holding one space is not empty, passes the
    guard, and is normalized to the empty string, which the output lists. *)
Lemma C7_empty_string_listed :
  exists out,
    extract_unique_values blank_breed_fs "blank_breed.csv" (Some "Breed") true false
    = Ok out /\ In EmptyString out.
Proof. exists [EmptyString; "DACHSHUND"]; split; [reflexivity | left; reflexivity]. Qed.

(** C8, as stated, fails: normalization leaves a tab character in place. *)
Lemma C8_tab_survives :
  exists out s,
    extract_unique_values tabbed_fs "tabbed.csv" (Some "Breed") true false = Ok out
    /\ In s out /\ no_whitespace s = false.
Proof.
  exists [String "L" (String "A" (String "B" (String tab "MIX")))],
         (String "L" (String "A" (String "B" (String tab "MIX")))).
  split; [reflexivity | split; [left; reflexivity | reflexivity]].
Qed.

(** C10, as stated, fails: with an inverted window a malformed date value
    still aborts the call. *)
Lemma C10_inverted_window_raises :
  exists start end_,
    Strptime.date "2/4/2017" = Some start /\
    Strptime.date "1/4/2017" = Some end_ /\
    datetime_leb start end_ = false /\
    values_in_date_range bad_date_fs "bad_date.csv" (Some "ValidDate")
      "2/4/2017" "1/4/2017" [Some "DogName"]
    = Raise (ValueError (msg_bad_date (Some "ValidDate") "yesterday")).
Proof.
  exists (mk_datetime 2017 2 4 0 0), (mk_datetime 2017 1 4 0 0).
  repeat split; reflexivity.
Qed.

(** ** The date-range scan *)

Lemma foldM_app {A S : Type} (f : S -> A -> result S) (l1 l2 : list A) (s : S) :
  foldM f (l1 ++ l2) s = bind (foldM f l1 s) (foldM f l2).
Proof.
  revert s; induction l1 as [|a l1 IH]; simpl; intros s; [reflexivity|].
  destruct (f s a); simpl; auto.
Qed.

Lemma mapM_Ok_ex {A B : Type} (f : A -> result B) (l : list A) :
  (forall a, In a l -> exists b, f a = Ok b) -> exists bs, mapM f l = Ok bs.
Proof.
  induction l as [|a l IH]; simpl; intros H; [eauto|].
  destruct (H a (or_introl eq_refl)) as (b & ->).
  destruct IH as (bs & ->); [intros; apply H; auto|].
  simpl; eauto.
Qed.

Lemma project_Ok (dc : option string) (tcs : list (option string)) (r : row)
  (v : cell) :
  (forall c, In c tcs -> exists w, row_item r c = Ok w) ->
  exists p, project dc tcs r v = Ok p.
Proof.
  intros H. unfold project.
  destruct (mapM_Ok_ex (fun col => w <- row_item r col ;; Ok (col, w)) tcs)
    as (items & ->); [|simpl; eauto].
  intros c Hc. destruct (H c Hc) as (w & ->). simpl; eauto.
Qed.

Lemma lex_leb_trans (a b c : list Z) :
  List.length a = List.length b -> List.length b = List.length c ->
  lex_leb a b = true -> lex_leb b c = true -> lex_leb a c = true.
Proof.
  revert b c; induction a as [|x a IH]; intros [|y b] [|z c]; simpl;
    try discriminate; auto.
  intros Hab Hbc H1 H2.
  injection Hab as Hab; injection Hbc as Hbc.
  apply orb_true_iff in H1 as [H1|H1]; apply orb_true_iff in H2 as [H2|H2];
    apply orb_true_iff.
  - left; apply Z.ltb_lt; apply Z.ltb_lt in H1, H2; lia.
  - apply andb_true_iff in H2 as [E _]; apply Z.eqb_eq in E; subst; auto.
  - apply andb_true_iff in H1 as [E _]; apply Z.eqb_eq in E; subst; auto.
  - apply andb_true_iff in H1 as [E1 H1]; apply andb_true_iff in H2 as [E2 H2].
    right; apply andb_true_iff; split.
    + apply Z.eqb_eq in E1, E2; apply Z.eqb_eq; congruence.
    + exact (IH b c Hab Hbc H1 H2).
Qed.

Lemma datetime_leb_trans (a b c : datetime) :
  datetime_leb a b = true -> datetime_leb b c = true -> datetime_leb a c = true.
Proof. apply lex_leb_trans; reflexivity. Qed.

Section RangeScan.
Variables (dc : option string) (tcs : list (option string)).
Variables (start end_ : datetime).

Let step := range_step dc tcs start end_.

(** A row whose date cell is empty or missing leaves the result as it is. *)
Lemma range_step_empty (acc : list projection) (r : row) :
  date_empty dc r = true -> step acc r = Ok acc.
Proof.
  unfold date_empty, step, range_step.
  destruct (row_item r dc) as [[s|]|e]; simpl; try discriminate; auto.
  intros H; apply negb_true_iff in H; rewrite H; reflexivity.
Qed.

(** A row either aborts the scan, when its date cell is malformed, or
    lets it go on. *)
Lemma range_step_cases (acc : list projection) (r : row) :
  (forall c, In c (dc :: tcs) -> exists w, row_item r c = Ok w) ->
  match date_malformed dc r with
  | Some s => step acc r = Raise (ValueError (msg_bad_date dc s))
  | None => exists acc', step acc r = Ok acc'
  end.
Proof.
  intros H. unfold date_malformed, step, range_step.
  destruct (H dc (or_introl eq_refl)) as (v & ->); simpl.
  destruct v as [s|]; [|eauto].
  destruct (PyStr.truthy s); [|eauto].
  destruct (Strptime.timestamp s) as [t|]; [|reflexivity].
  destruct (datetime_leb start t && datetime_leb t end_); [|eauto].
  destruct (project_Ok dc tcs r (CStr s)) as (p & ->); [|simpl; eauto].
  intros c Hc; apply H; right; exact Hc.
Qed.

Lemma range_scan_cases (rs : list row) (acc : list projection) :
  (forall r c, In r rs -> In c (dc :: tcs) -> exists w, row_item r c = Ok w) ->
  match first_malformed dc rs with
  | Some s => foldM step rs acc = Raise (ValueError (msg_bad_date dc s))
  | None => exists res, foldM step rs acc = Ok res
  end.
Proof.
  revert acc; induction rs as [|r rs IH]; simpl; intros acc H; [eauto|].
  assert (Hr := range_step_cases acc r (fun c => H r c (or_introl eq_refl))).
  destruct (date_malformed dc r) as [s|].
  - rewrite Hr; reflexivity.
  - destruct Hr as (acc' & ->); simpl.
    apply IH. intros r' c Hr' Hc; apply H; auto.
Qed.

(** With an inverted window no row is ever appended. *)
Lemma range_step_inverted (acc acc' : list projection) (r : row) :
  datetime_leb start end_ = false -> step acc r = Ok acc' -> acc' = acc.
Proof.
  intros Hinv. unfold step, range_step.
  destruct (row_item r dc) as [[s|]|e]; simpl; try congruence.
  destruct (PyStr.truthy s); [|congruence].
  destruct (Strptime.timestamp s) as [t|]; [|discriminate].
  destruct (datetime_leb start t && datetime_leb t end_) eqn:E; [|congruence].
  apply andb_true_iff in E as [E1 E2].
  rewrite (datetime_leb_trans _ _ _ E1 E2) in Hinv; discriminate.
Qed.

Lemma range_scan_inverted (rs : list row) (acc res : list projection) :
  datetime_leb start end_ = false -> foldM step rs acc = Ok res -> res = acc.
Proof.
  intros Hinv; revert acc; induction rs as [|r rs IH]; simpl; intros acc H.
  - congruence.
  - apply bind_Ok_inv in H as (acc' & Hs & H).
    apply (range_step_inverted _ _ _ Hinv) in Hs; subst acc'. auto.
Qed.
End RangeScan.

Lemma validate_header_only (fs fs' : filesystem) (csv_file : string)
  (fn : list string) (recs recs' : list (list string))
  (cols : list (option string)) :
  fs csv_file = Some (fn :: recs) -> fs' csv_file = Some (fn :: recs') ->
  _validate_csv_and_columns fs csv_file cols
  = _validate_csv_and_columns fs' csv_file cols.
Proof.
  intros H H'. unfold _validate_csv_and_columns. rewrite H, H'. reflexivity.
Qed.

Lemma values_in_date_range_unfold (fs : filesystem) (csv_file : string)
  (dc : option string) (sd ed : string) (tcs : list (option string))
  (src : source) (start end_ : datetime) :
  fs csv_file = Some src ->
  _validate_csv_and_columns fs csv_file (dc :: tcs) = Ok tt ->
  Strptime.date sd = Some start -> Strptime.date ed = Some end_ ->
  values_in_date_range fs csv_file dc sd ed tcs
  = foldM (range_step dc tcs start end_) (Csv.rows src) [].
Proof.
  intros Hfs Hv Hs He. unfold values_in_date_range, open_reader, strptime_bound.
  rewrite Hv, Hfs, Hs, He. reflexivity.
Qed.

Lemma first_malformed_sound (dc : option string) (rs : list row) (s : string) :
  first_malformed dc rs = Some s ->
  exists r, In r rs /\ row_item r dc = Ok (CStr s) /\ s <> EmptyString
            /\ Strptime.timestamp s = None.
Proof.
  induction rs as [|r rs IH]; simpl; [discriminate|].
  destruct (date_malformed dc r) as [s'|] eqn:E.
  - intros H; injection H as ->. exists r; split; auto.
    unfold date_malformed in E.
    destruct (row_item r dc) as [[t|]|]; try discriminate.
    destruct (PyStr.truthy t) eqn:Ht; [|discriminate].
    destruct (Strptime.timestamp t) eqn:Hp; [discriminate|].
    injection E as ->. repeat split; auto.
    intros ->; discriminate.
  - intros H. destruct (IH H) as (r' & Hr' & Hrest). exists r'; auto.
Qed.

Lemma first_malformed_complete (dc : option string) (rs : list row) (r : row)
  (s : string) :
  In r rs -> row_item r dc = Ok (CStr s) -> s <> EmptyString ->
  Strptime.timestamp s = None -> first_malformed dc rs <> None.
Proof.
  intros Hr Hi Hs Hp. induction rs as [|r0 rs IH]; simpl; [destruct Hr|].
  destruct (date_malformed dc r0) as [s0|] eqn:E; [discriminate|].
  destruct Hr as [->|Hr]; auto.
  unfold date_malformed in E. rewrite Hi, Hp in E.
  destruct (PyStr.truthy s) eqn:Ht; [discriminate|].
  unfold PyStr.truthy in Ht. apply negb_false_iff, String.eqb_eq in Ht. tauto.
Qed.

(** C3 (values_in_date_range, empty against malformed date values).  On a
    validated source with parseable window bounds: deleting a record whose
    date cell is empty or missing does not change the outcome of the call;
    if some row carries a non-empty date value that does not parse, the
    call returns no result and raises the [ValueError] whose message is
    [Invalid date format in column '<column>': <value>], with the name of
    the date column and the raw date value of such a row; and if no row
    does, the call returns a result. *)
Theorem C3_empty_skipped_malformed_aborts
  (fs : filesystem) (csv_file : string) (dc : option string) (sd ed : string)
  (tcs : list (option string)) (fn : list string) (recs : list (list string))
  (start end_ : datetime) :
  fs csv_file = Some (fn :: recs) ->
  _validate_csv_and_columns fs csv_file (dc :: tcs) = Ok tt ->
  Strptime.date sd = Some start -> Strptime.date ed = Some end_ ->
  (forall fs' pre rec post,
      recs = pre ++ rec :: post ->
      date_empty dc (Csv.make_row fn rec) = true ->
      fs' csv_file = Some (fn :: pre ++ post) ->
      values_in_date_range fs' csv_file dc sd ed tcs
      = values_in_date_range fs csv_file dc sd ed tcs)
  /\ (forall r s,
         In r (Csv.rows (fn :: recs)) -> row_item r dc = Ok (CStr s) ->
         s <> EmptyString -> Strptime.timestamp s = None ->
         exists c r0 s0,
           dc = Some c /\ In c fn
           /\ In r0 (Csv.rows (fn :: recs)) /\ row_item r0 dc = Ok (CStr s0)
           /\ s0 <> EmptyString /\ Strptime.timestamp s0 = None
           /\ values_in_date_range fs csv_file dc sd ed tcs
              = Raise (ValueError
                         ("Invalid date format in column '" ++ c ++ "': " ++ s0)%string))
  /\ (first_malformed dc (Csv.rows (fn :: recs)) = None ->
      exists res, values_in_date_range fs csv_file dc sd ed tcs = Ok res).
Proof.
  intros Hfs Hv Hs He.
  assert (Hcols : check_columns fn (dc :: tcs) = Ok tt).
  { destruct (validate_Ok_inv _ _ _ _ Hv) as (fn' & recs' & Hfs' & Hc).
    rewrite Hfs in Hfs'; injection Hfs' as <- <-. exact Hc. }
  assert (Hitems : forall r c, In r (Csv.rows (fn :: recs)) -> In c (dc :: tcs) ->
                               exists w, row_item r c = Ok w).
  { intros r c; apply rows_items, Hcols. }
  destruct (check_columns_Ok _ _ _ Hcols dc (or_introl eq_refl)) as (cname & Hdc & Hcn).
  assert (Hscan := range_scan_cases dc tcs start end_ (Csv.rows (fn :: recs)) [] Hitems).
  rewrite (values_in_date_range_unfold _ _ _ _ _ _ _ _ _ Hfs Hv Hs He).
  split; [|split].
  - intros fs' pre rec post -> Hempty Hfs'.
    assert (Hv' : _validate_csv_and_columns fs' csv_file (dc :: tcs) = Ok tt).
    { rewrite <- Hv. symmetry. eapply validate_header_only; eassumption. }
    rewrite (values_in_date_range_unfold _ _ _ _ _ _ _ _ _ Hfs' Hv' Hs He).
    simpl. rewrite !filter_app, !map_app, !foldM_app. simpl.
    destruct (foldM (range_step dc tcs start end_)
                (map (Csv.make_row fn) (filter (fun r => negb (Csv.is_blank r)) pre)) [])
      as [acc|e]; simpl; [|reflexivity].
    destruct (negb (Csv.is_blank rec)); simpl; [|reflexivity].
    rewrite range_step_empty by assumption. reflexivity.
  - intros r s Hr Hi Hne Hp.
    destruct (first_malformed dc (Csv.rows (fn :: recs))) as [s0|] eqn:E.
    + destruct (first_malformed_sound _ _ _ E) as (r0 & H0 & H1 & H2 & H3).
      exists cname, r0, s0. rewrite Hscan. subst dc.
      repeat split; auto.
    + destruct (first_malformed_complete _ _ _ _ Hr Hi Hne Hp E).
  - intros E; rewrite E in Hscan; exact Hscan.
Qed.

(** C10, amended (values_in_date_range, inverted window).  When both bounds
    parse and the start is strictly later than the end, the call never
    returns a row; it returns the empty sequence as soon as validation
    passes and no row carries a malformed date value. *)
Theorem C10_inverted_window_selects_nothing
  (fs : filesystem) (csv_file : string) (dc : option string) (sd ed : string)
  (tcs : list (option string)) (start end_ : datetime) :
  Strptime.date sd = Some start -> Strptime.date ed = Some end_ ->
  datetime_leb start end_ = false ->
  (forall res, values_in_date_range fs csv_file dc sd ed tcs = Ok res -> res = [])
  /\ (forall src,
         fs csv_file = Some src ->
         _validate_csv_and_columns fs csv_file (dc :: tcs) = Ok tt ->
         first_malformed dc (Csv.rows src) = None ->
         values_in_date_range fs csv_file dc sd ed tcs = Ok []).
Proof.
  intros Hs He Hinv.
  assert (Hres : forall res, values_in_date_range fs csv_file dc sd ed tcs = Ok res
                             -> res = []).
  { intros res H. unfold values_in_date_range in H.
    apply bind_Ok_inv in H as (u & _ & H).
    apply bind_Ok_inv in H as (src & _ & H).
    unfold strptime_bound in H. rewrite Hs, He in H. simpl in H.
    eapply range_scan_inverted; eassumption. }
  split; [exact Hres|].
  intros src Hfs Hv Hnone.
  destruct (validate_Ok_inv _ _ _ _ Hv) as (fn & recs & Hfs' & Hc).
  rewrite Hfs in Hfs'; injection Hfs' as ->.
  assert (Hscan := range_scan_cases dc tcs start end_ (Csv.rows (fn :: recs)) []
                     (fun r c => rows_items fn recs (dc :: tcs) Hc r c)).
  rewrite Hnone in Hscan. destruct Hscan as (res & Hscan).
  assert (E := values_in_date_range_unfold _ _ _ _ _ _ _ _ _ Hfs Hv Hs He).
  rewrite E, Hscan. f_equal. apply Hres. rewrite E; exact Hscan.
Qed.

Lemma C3_bad_date_witness :
  exists c r0 s0,
    Some "ValidDate" = Some c /\ In c ["DogName"; "ValidDate"]
    /\ In r0 (Csv.rows bad_date) /\ row_item r0 (Some "ValidDate") = Ok (CStr s0)
    /\ s0 <> EmptyString /\ Strptime.timestamp s0 = None
    /\ values_in_date_range bad_date_fs "bad_date.csv" (Some "ValidDate")
         "1/4/2017" "2/4/2017" [Some "DogName"]
       = Raise (ValueError
                  ("Invalid date format in column '" ++ c ++ "': " ++ s0)%string).
Proof.
  refine (proj1 (proj2 (C3_empty_skipped_malformed_aborts
            bad_date_fs "bad_date.csv" (Some "ValidDate") "1/4/2017" "2/4/2017"
            [Some "DogName"] ["DogName"; "ValidDate"]
            [["REX"; "1/4/2017 8:39"]; ["LULU"; "yesterday"]]
            (mk_datetime 2017 1 4 0 0) (mk_datetime 2017 2 4 0 0)
            eq_refl eq_refl eq_refl eq_refl))
          (Csv.make_row ["DogName"; "ValidDate"] ["LULU"; "yesterday"])
          "yesterday" _ eq_refl _ eq_refl).
  - right; left; reflexivity.
  - discriminate.
Defined.

Lemma C10_licenses_witness :
  values_in_date_range licenses_fs "licenses.csv" (Some "ValidDate")
    "2/4/2017" "1/4/2017" [Some "DogName"] = Ok [].
Proof.
  refine (proj2 (C10_inverted_window_selects_nothing
            licenses_fs "licenses.csv" (Some "ValidDate") "2/4/2017" "1/4/2017"
            [Some "DogName"] (mk_datetime 2017 2 4 0 0) (mk_datetime 2017 1 4 0 0)
            eq_refl eq_refl eq_refl)
          licenses eq_refl eq_refl eq_refl).
Defined.

(** ** Validation *)

Lemma check_columns_first_offending (fn : list string) (cols : list (option string)) :
  check_columns fn cols
  = match first_offending fn cols with
    | None => Ok tt
    | Some c =>
        if column_blank c then Raise (ValueError msg_empty_column)
        else Raise (ValueError (msg_no_column (column_text c)))
    end.
Proof.
  unfold first_offending.
  induction cols as [|c cols IH]; simpl; [reflexivity|].
  destruct (column_blank c) eqn:Hb; simpl; [rewrite Hb; reflexivity|].
  destruct (column_in c fn); simpl; [exact IH | rewrite Hb; reflexivity].
Qed.

(** C6, amended (_validate_csv_and_columns, order of the checks).  The
    extension is tested first, then that the file opens, then that the
    header is not empty; after that the required columns are taken in list
    order and each is tested for emptiness and then for presence, so the
    first column that fails either test decides the failure.  The outcome
    depends on the header alone, and a failed validation is the outcome of
    every operation, whatever the data rows hold. *)
Theorem C6_validation_order
  (fs : filesystem) (csv_file : string) (cols : list (option string)) :
  (PyStr.endswith (PyStr.lower csv_file) ".csv" = false ->
   _validate_csv_and_columns fs csv_file cols
   = Raise (ValueError (msg_not_csv csv_file)))
  /\ (PyStr.endswith (PyStr.lower csv_file) ".csv" = true ->
      _validate_csv_and_columns fs csv_file cols
      = match fs csv_file with
        | None => Raise (FileNotFoundError (msg_not_found csv_file))
        | Some [] | Some ([] :: _) => Raise (ValueError (msg_empty csv_file))
        | Some (fn :: _) =>
            match first_offending fn cols with
            | None => Ok tt
            | Some c =>
                if column_blank c then Raise (ValueError msg_empty_column)
                else Raise (ValueError (msg_no_column (column_text c)))
            end
        end)
  /\ (forall fs' fn recs recs',
         fs csv_file = Some (fn :: recs) -> fs' csv_file = Some (fn :: recs') ->
         _validate_csv_and_columns fs' csv_file cols
         = _validate_csv_and_columns fs csv_file cols)
  /\ (forall e,
         _validate_csv_and_columns fs csv_file cols = Raise e ->
         (forall normalize lowercase,
             count_by_columns fs csv_file cols normalize lowercase = Raise e)
         /\ (forall column normalize lowercase n,
                cols = [column] ->
                extract_unique_values fs csv_file column normalize lowercase = Raise e
                /\ top_n_values fs csv_file column n normalize lowercase = Raise e)
         /\ (forall date_column target_columns start_date end_date,
                cols = date_column :: target_columns ->
                values_in_date_range fs csv_file date_column start_date end_date
                  target_columns = Raise e)).
Proof.
  split; [|split; [|split]].
  - intros H. unfold _validate_csv_and_columns. rewrite H; reflexivity.
  - intros H. unfold _validate_csv_and_columns. rewrite H; simpl.
    destruct (fs csv_file) as [[|[|c fn] recs]|]; simpl; try reflexivity.
    apply check_columns_first_offending.
  - intros fs' fn recs recs' H H'. symmetry.
    eapply validate_header_only; eassumption.
  - intros e H; split; [|split].
    + intros normalize lowercase. unfold count_by_columns. rewrite H; reflexivity.
    + intros column normalize lowercase n ->; split.
      * unfold extract_unique_values. rewrite H; reflexivity.
      * unfold top_n_values. rewrite H; reflexivity.
    + intros dc tcs sd ed ->. unfold values_in_date_range. rewrite H; reflexivity.
Qed.

Lemma C6_absent_then_empty_witness :
  _validate_csv_and_columns whitespaces_fs "whitespaces.csv"
    [Some "Absent"; Some EmptyString]
  = Raise (ValueError (msg_no_column "Absent")).
Proof.
  exact (proj1 (proj2 (C6_validation_order whitespaces_fs "whitespaces.csv"
                         [Some "Absent"; Some EmptyString])) eq_refl).
Defined.

(** ** Unique values *)

Lemma set_add_In (x y : string) (s : list string) :
  In x (set_add y s) <-> x = y \/ In x s.
Proof.
  unfold set_add. destruct (existsb (String.eqb y) s) eqn:E.
  - apply (existsb_keqb String.eqb String.eqb_spec) in E.
    split; [auto | intros [->|H]; auto].
  - rewrite in_app_iff; simpl; intuition.
Qed.

Lemma set_add_NoDup (y : string) (s : list string) :
  NoDup s -> NoDup (set_add y s).
Proof.
  intros H. unfold set_add. destruct (existsb (String.eqb y) s) eqn:E; auto.
  apply (existsb_keqb_false String.eqb String.eqb_spec) in E.
  apply NoDup_app; auto.
  - constructor; [simpl; tauto | constructor].
  - intros x Hx [<-|[]]; tauto.
Qed.

Section UniqueScan.
Variables (tc : option string) (normalize lowercase : bool).

(** A value is contributed by a row whose cell is a non-empty string. *)
Let contributed (rs : list row) (x : string) : Prop :=
  exists r s, In r rs /\ row_get r tc (CStr EmptyString) = CStr s
              /\ s <> EmptyString /\ x = normalize_value normalize lowercase s.

Lemma unique_step_In (acc : list string) (r : row) (x : string) :
  In x (unique_step tc normalize lowercase acc r)
  <-> In x acc \/ contributed [r] x.
Proof.
  unfold unique_step, contributed.
  destruct (row_get r tc (CStr EmptyString)) as [s|] eqn:E.
  - destruct (PyStr.truthy s) eqn:Ht.
    + rewrite set_add_In. split.
      * intros [->|H]; auto. right; exists r, s; repeat split; simpl; auto.
        intros ->; discriminate.
      * intros [H|(r' & s' & [<-|[]] & Hg & _ & ->)]; auto.
        rewrite E in Hg; injection Hg as <-; auto.
    + split; auto. intros [H|(r' & s' & [<-|[]] & Hg & Hne & _)]; auto.
      rewrite E in Hg; injection Hg as <-.
      unfold PyStr.truthy in Ht. apply negb_false_iff, String.eqb_eq in Ht. tauto.
  - split; auto. intros [H|(r' & s' & [<-|[]] & Hg & _)]; auto.
    rewrite E in Hg; discriminate.
Qed.

Lemma unique_fold_In (rs : list row) (acc : list string) (x : string) :
  In x (fold_left (unique_step tc normalize lowercase) rs acc)
  <-> In x acc \/ contributed rs x.
Proof.
  revert acc; induction rs as [|r rs IH]; simpl; intros acc.
  - split; auto. intros [H|(r & s & [] & _)]; auto.
  - rewrite IH, unique_step_In. unfold contributed. split.
    + intros [[H|(r' & s & [<-|[]] & H)]|(r' & s & Hr & H)]; auto.
      * right; exists r, s; simpl; auto.
      * right; exists r', s; simpl; auto.
    + intros [H|(r' & s & [<-|Hr] & H)]; auto.
      * left; right; exists r, s; simpl; auto.
      * right; exists r', s; auto.
Qed.

Lemma unique_fold_NoDup (rs : list row) (acc : list string) :
  NoDup acc -> NoDup (fold_left (unique_step tc normalize lowercase) rs acc).
Proof.
  revert acc; induction rs as [|r rs IH]; simpl; intros acc H; auto.
  apply IH. unfold unique_step.
  destruct (row_get r tc (CStr EmptyString)) as [s|]; auto.
  destruct (PyStr.truthy s); auto. apply set_add_NoDup, H.
Qed.
End UniqueScan.

Lemma leb_total_bool (a b : string) : String.leb a b = false -> String.leb b a = true.
Proof.
  intros H. destruct (String.leb_total a b) as [H'|H']; congruence.
Qed.

Lemma leb_lt_or_eq (a b : string) : String.leb a b = true -> a = b \/ str_lt a b.
Proof.
  unfold String.leb, str_lt. destruct (String.compare a b) eqn:E; try discriminate; auto.
  left; apply String.compare_eq_iff, E.
Qed.

Lemma str_lt_trans (a b c : string) : str_lt a b -> str_lt b c -> str_lt a c.
Proof.
  unfold str_lt. intros H1 H2.
  apply String_as_OT.cmp_lt in H1, H2. apply String_as_OT.cmp_lt.
  eapply String_as_OT.lt_trans; eassumption.
Qed.

Lemma Sorted_leb_strict (l : list string) :
  Sorted (le_prop String.leb) l -> NoDup l -> StronglySorted str_lt l.
Proof.
  induction l as [|a l IH]; intros Hs Hn; [constructor|].
  inversion Hs as [|? ? Hs' Hh]; subst. inversion Hn as [|? ? Ha Hn']; subst.
  specialize (IH Hs' Hn'). constructor; auto.
  destruct l as [|b l]; [constructor|].
  inversion Hh as [|? ? Hab]; subst. inversion IH as [|? ? _ Hb]; subst.
  assert (Hlt : str_lt a b).
  { destruct (leb_lt_or_eq _ _ Hab) as [->|H]; auto. destruct Ha; left; reflexivity. }
  constructor; auto.
  eapply Forall_impl; [|exact Hb]. intros c Hc. eapply str_lt_trans; eassumption.
Qed.

Lemma sorted_strict (l : list string) :
  NoDup l -> StronglySorted str_lt (sorted String.leb l).
Proof.
  intros H. apply Sorted_leb_strict.
  - apply sorted_Sorted, leb_total_bool.
  - eapply Permutation_NoDup; [symmetry; apply sorted_perm | exact H].
Qed.

Lemma lower_empty (s : string) : PyStr.lower s = EmptyString -> s = EmptyString.
Proof. destruct s; simpl; [auto | discriminate]. Qed.

Lemma replace_space_empty (s : string) :
  PyStr.replace_space s = EmptyString -> only_spaces s = true.
Proof.
  induction s as [|c s IH]; simpl; auto.
  destruct (Ascii.eqb c " "); simpl; [auto | discriminate].
Qed.

Lemma normalize_value_empty (normalize lowercase : bool) (s : string) :
  normalize_value normalize lowercase s = EmptyString -> s <> EmptyString ->
  normalize = true /\ only_spaces s = true.
Proof.
  unfold normalize_value. intros H Hne.
  assert (H' : (if normalize then PyStr.replace_space s else s) = EmptyString).
  { destruct lowercase; auto using lower_empty. }
  destruct normalize; [|tauto].
  split; auto using replace_space_empty.
Qed.

(** C7, amended (extract_unique_values).  The output is strictly ascending
    in ordinal string order and free of duplicates; it lists exactly the
    normalized values of the cells that hold a non-empty string, so missing
    and empty cells contribute nothing; the empty string is listed only
    under [normalize=True], for a cell made of space characters only. *)
Theorem C7_unique_values_sorted
  (fs : filesystem) (csv_file : string) (target_column : option string)
  (normalize lowercase : bool) (out : list string) :
  extract_unique_values fs csv_file target_column normalize lowercase = Ok out ->
  StronglySorted str_lt out /\ NoDup out
  /\ exists src,
      fs csv_file = Some src
      /\ (forall x,
             In x out <->
             exists r s,
               In r (Csv.rows src)
               /\ row_get r target_column (CStr EmptyString) = CStr s
               /\ s <> EmptyString /\ x = normalize_value normalize lowercase s)
      /\ (In EmptyString out ->
          normalize = true
          /\ exists r s,
              In r (Csv.rows src)
              /\ row_get r target_column (CStr EmptyString) = CStr s
              /\ s <> EmptyString /\ only_spaces s = true).
Proof.
  intros H. unfold extract_unique_values in H.
  apply bind_Ok_inv in H as (u & _ & H).
  apply bind_Ok_inv in H as (src & Hsrc & H).
  injection H as <-.
  assert (Hfs : fs csv_file = Some src).
  { unfold open_reader in Hsrc. destruct (fs csv_file); [congruence | discriminate]. }
  assert (Hn := unique_fold_NoDup target_column normalize lowercase
                  (Csv.rows src) [] (NoDup_nil _)).
  assert (Hin : forall x,
             In x (sorted String.leb
                     (fold_left (unique_step target_column normalize lowercase)
                        (Csv.rows src) [])) <->
             exists r s,
               In r (Csv.rows src)
               /\ row_get r target_column (CStr EmptyString) = CStr s
               /\ s <> EmptyString /\ x = normalize_value normalize lowercase s).
  { intros x. rewrite sorted_In, unique_fold_In. simpl. tauto. }
  split; [apply sorted_strict, Hn|].
  split; [eapply Permutation_NoDup; [symmetry; apply sorted_perm | exact Hn]|].
  exists src; split; [exact Hfs|]. split; [exact Hin|].
  intros He. apply Hin in He as (r & s & Hr & Hg & Hne & Hx).
  symmetry in Hx. destruct (normalize_value_empty _ _ _ Hx Hne) as [Hnorm Hsp].
  split; auto. exists r, s; auto.
Qed.

Lemma C7_blank_breed_witness :
  StronglySorted str_lt [EmptyString; "DACHSHUND"]
  /\ NoDup [EmptyString; "DACHSHUND"].
Proof.
  pose proof (C7_unique_values_sorted blank_breed_fs "blank_breed.csv"
                (Some "Breed") true false [EmptyString; "DACHSHUND"] eq_refl) as H.
  exact (conj (proj1 H) (proj1 (proj2 H))).
Defined.

(** ** The frequency table *)

Lemma mapM_In {A B : Type} (f : A -> result B) (l : list A) (bs : list B) :
  mapM f l = Ok bs -> forall b, In b bs -> exists a, In a l /\ f a = Ok b.
Proof.
  revert bs; induction l as [|a l IH]; simpl; intros bs H b Hb.
  - injection H as <-; destruct Hb.
  - apply bind_Ok_inv in H as (b0 & Hb0 & H).
    apply bind_Ok_inv in H as (bs' & Hbs & H). injection H as <-.
    destruct Hb as [<-|Hb]; [eauto|].
    destruct (IH _ Hbs b Hb) as (a' & Ha' & Hf); eauto.
Qed.

Lemma count_scan_eq (normalize lowercase : bool) (cols : list (option string))
  (rs : list row) (acc : @dict (list cell) Z) :
  foldM (count_step normalize lowercase cols) rs acc
  = bind (mapM (group_key normalize lowercase cols) rs)
         (fun ks => Ok (fold_left counter_incr ks acc)).
Proof.
  revert acc; induction rs as [|r rs IH]; simpl; intros acc; [reflexivity|].
  unfold count_step at 1.
  destruct (group_key normalize lowercase cols r) as [k|e]; simpl; [|reflexivity].
  rewrite IH.
  destruct (mapM (group_key normalize lowercase cols) rs); reflexivity.
Qed.

Lemma counter_keys (ks : list (list cell)) (acc : @dict (list cell) Z) :
  map fst (fold_left counter_incr ks acc)
  = fold_left (fun a k => if existsb (key_eqb k) a then a else a ++ [k])
              ks (map fst acc).
Proof.
  revert acc; induction ks as [|k ks IH]; simpl; intros acc; [reflexivity|].
  rewrite IH. f_equal. unfold counter_incr. apply keys_dict_set.
Qed.

Lemma counter_keys_first_seen (ks : list (list cell)) :
  map fst (fold_left counter_incr ks []) = first_seen key_eqb ks.
Proof. apply counter_keys. Qed.

Lemma counter_keys_NoDup (ks : list (list cell)) (acc : @dict (list cell) Z) :
  NoDup (map fst acc) -> NoDup (map fst (fold_left counter_incr ks acc)).
Proof.
  revert acc; induction ks as [|k ks IH]; simpl; intros acc H; auto.
  apply IH. unfold counter_incr. apply (keys_dict_set_NoDup key_eqb key_eqb_spec), H.
Qed.

Lemma counter_keys_In (ks : list (list cell)) (acc : @dict (list cell) Z)
  (k : list cell) :
  In k (map fst (fold_left counter_incr ks acc)) -> In k (map fst acc) \/ In k ks.
Proof.
  revert acc; induction ks as [|k0 ks IH]; simpl; intros acc H; auto.
  apply IH in H as [H|H]; auto.
  unfold counter_incr in H. rewrite keys_dict_set in H.
  destruct (existsb (key_eqb k0) (map fst acc)); auto.
  apply in_app_or in H as [H|[<-|[]]]; auto.
Qed.

Lemma sum_counts_dict_set (d : @dict (list cell) Z) (k : list cell) (v : Z) :
  sum_counts (dict_set key_eqb d k v)
  = sum_counts d + v - match dict_get key_eqb d k with Some c => c | None => 0 end.
Proof.
  unfold sum_counts. induction d as [|[k0 v0] d IH]; simpl; [lia|].
  destruct (key_eqb k k0); simpl; lia.
Qed.

Lemma sum_counts_counter_incr (d : @dict (list cell) Z) (k : list cell) :
  sum_counts (counter_incr d k) = sum_counts d + 1.
Proof. unfold counter_incr. rewrite sum_counts_dict_set. lia. Qed.

Lemma sum_counts_scan (ks : list (list cell)) (acc : @dict (list cell) Z) :
  sum_counts (fold_left counter_incr ks acc)
  = sum_counts acc + Z.of_nat (List.length ks).
Proof.
  revert acc; induction ks as [|k ks IH]; intros acc.
  - simpl; lia.
  - cbn [fold_left List.length]. rewrite IH, sum_counts_counter_incr. lia.
Qed.

Lemma sum_counts_perm {K : Type} (d d' : @dict K Z) :
  Permutation d d' -> sum_counts d = sum_counts d'.
Proof.
  unfold sum_counts. induction 1; simpl; lia.
Qed.

Lemma by_count_desc_total {K : Type} (a b : K * Z) :
  by_count_desc a b = false -> by_count_desc b a = true.
Proof. unfold by_count_desc. intros H. apply Z.leb_gt in H. apply Z.leb_le. lia. Qed.

(** What a successful call of count_by_columns returns: the frequency
    table of the scanned keys, in stable descending order of counts. *)
Lemma count_by_columns_spec (fs : filesystem) (csv_file : string)
  (cols : list (option string)) (normalize lowercase : bool)
  (d : @dict (list cell) Z) :
  count_by_columns fs csv_file cols normalize lowercase = Ok d ->
  exists src ks,
    fs csv_file = Some src
    /\ scan_keys normalize lowercase cols src = Ok ks
    /\ d = sorted by_count_desc (fold_left counter_incr ks [])
    /\ NoDup (map fst d).
Proof.
  intros H. unfold count_by_columns in H.
  apply bind_Ok_inv in H as (u & _ & H).
  apply bind_Ok_inv in H as (src & Hsrc & H).
  apply bind_Ok_inv in H as (cd & Hcd & H). injection H as <-.
  rewrite count_scan_eq in Hcd. apply bind_Ok_inv in Hcd as (ks & Hks & Hcd).
  injection Hcd as <-.
  assert (Hn : NoDup (map fst (sorted by_count_desc (fold_left counter_incr ks [])))).
  { eapply Permutation_NoDup.
    - apply Permutation_map. symmetry. apply sorted_perm.
    - apply counter_keys_NoDup. constructor. }
  rewrite (dict_of_pairs_NoDup key_eqb key_eqb_spec) by exact Hn.
  exists src, ks. repeat split; auto.
  unfold open_reader in Hsrc. destruct (fs csv_file); [congruence | discriminate].
Qed.

(** Where the call returns, the counts sum to the number of rows. *)
Lemma count_by_columns_sum (fs : filesystem) (csv_file : string)
  (cols : list (option string)) (normalize lowercase : bool)
  (d : @dict (list cell) Z) :
  count_by_columns fs csv_file cols normalize lowercase = Ok d ->
  exists src, fs csv_file = Some src
              /\ sum_counts d = Z.of_nat (List.length (Csv.rows src)).
Proof.
  intros H. apply count_by_columns_spec in H as (src & ks & Hfs & Hks & -> & _).
  exists src; split; auto.
  rewrite (sum_counts_perm _ _ (sorted_perm _ _)), sum_counts_scan.
  unfold scan_keys in Hks. apply mapM_length in Hks. rewrite Hks.
  unfold sum_counts; simpl; lia.
Qed.

(** ** The ranking *)

Lemma before_map_fwd {A B : Type} (f : A -> B) (l : list A) (a b : A) :
  before l a b -> before (map f l) (f a) (f b).
Proof.
  intros (l1 & l2 & l3 & ->). exists (map f l1), (map f l2), (map f l3).
  rewrite !map_app; simpl; rewrite map_app; reflexivity.
Qed.

Lemma Sorted_firstn {A : Type} (R : A -> A -> Prop) (n : nat) (l : list A) :
  Sorted R l -> Sorted R (firstn n l).
Proof.
  revert n; induction l as [|a l IH]; intros [|n] H; simpl; try constructor.
  - apply IH. inversion H; assumption.
  - inversion H as [|? ? _ Hh]; subst.
    destruct l as [|b l]; destruct n; simpl; constructor.
    inversion Hh; assumption.
Qed.

Lemma Sorted_bare_value (d : @dict (list cell) Z) :
  Sorted (le_prop by_count_desc) d ->
  Sorted (le_prop by_count_desc) (map bare_value d).
Proof.
  induction d as [|a d IH]; simpl; intros H; [constructor|].
  inversion H as [|? ? Hs Hh]; subst. constructor; auto.
  destruct d as [|b d]; simpl; constructor.
  inversion Hh; assumption.
Qed.

Lemma Sorted_count_ge (l : list (cell * Z)) :
  Sorted (le_prop by_count_desc) l -> StronglySorted count_ge l.
Proof.
  intros H. apply Sorted_StronglySorted.
  - intros a b c Hab Hbc. unfold count_ge in *. lia.
  - induction H as [|a l0 _ IH Hh]; constructor; auto.
    destruct Hh as [|b l' Hab]; constructor.
    unfold count_ge. apply Z.leb_le. exact Hab.
Qed.

Lemma group_key_singleton (normalize lowercase : bool) (tc : option string)
  (r : row) (k : list cell) :
  group_key normalize lowercase [tc] r = Ok k -> exists c, k = [c].
Proof.
  intros H. apply mapM_length in H.
  destruct k as [|c [|c' k]]; try discriminate. eauto.
Qed.

Lemma ranking_keys_singleton (normalize lowercase : bool) (tc : option string)
  (src : source) (ks : list (list cell)) (kv : list cell * Z) :
  scan_keys normalize lowercase [tc] src = Ok ks ->
  In kv (sorted by_count_desc (fold_left counter_incr ks [])) ->
  exists c, fst kv = [c].
Proof.
  intros Hks Hin. apply sorted_In in Hin.
  apply (in_map fst) in Hin. apply counter_keys_In in Hin as [[]|Hin].
  destruct (mapM_In _ _ _ Hks _ Hin) as (r & _ & Hr).
  eapply group_key_singleton; eassumption.
Qed.

(** top_n_values returns the first [n] entries of the ranking that
    count_by_columns produces for the single column. *)
Lemma top_n_values_spec (fs : filesystem) (csv_file : string)
  (tc : option string) (n : Z) (normalize lowercase : bool)
  (d : @dict (list cell) Z) :
  count_by_columns fs csv_file [tc] normalize lowercase = Ok d ->
  top_n_values fs csv_file tc n normalize lowercase
  = Ok (firstn (Z.to_nat n) (map bare_value d)).
Proof.
  intros H. unfold top_n_values.
  assert (Hv : exists u, _validate_csv_and_columns fs csv_file [tc] = Ok u).
  { unfold count_by_columns in H. apply bind_Ok_inv in H as (u & Hu & _). eauto. }
  destruct Hv as (u & ->). simpl. rewrite H. simpl.
  destruct (count_by_columns_spec _ _ _ _ _ _ H) as (src & ks & Hfs & Hks & Hd & Hn).
  assert (Hsing : forall kv, In kv d -> exists c, fst kv = [c]).
  { intros kv Hkv. subst d. eapply ranking_keys_singleton; eassumption. }
  rewrite (mapM_all_Ok collapse_item bare_value).
  2:{ intros [k v] Hkv. destruct (Hsing _ Hkv) as (c & Hc). simpl in Hc; subst k.
      reflexivity. }
  simpl. f_equal.
  rewrite (dict_of_pairs_NoDup cell_eqb cell_eqb_spec).
  2:{ rewrite map_map.
      replace (map (fun x => fst (bare_value x)) d) with (map (hd CNone) (map fst d))
        by (rewrite map_map; reflexivity).
      apply NoDup_map_NoDup_ForallPairs; [|exact Hn].
      intros k1 k2 H1 H2 E.
      apply in_map_iff in H1 as (kv1 & <- & H1). apply in_map_iff in H2 as (kv2 & <- & H2).
      destruct (Hsing _ H1) as (c1 & E1). destruct (Hsing _ H2) as (c2 & E2).
      rewrite E1, E2 in *. simpl in E. congruence. }
  unfold most_common.
  rewrite sorted_id.
  2:{ apply Sorted_bare_value. subst d. apply sorted_Sorted, by_count_desc_total. }
  destruct (Z.leb_spec n 0) as [Hle|Hgt]; [|reflexivity].
  replace (Z.to_nat n) with O by lia. reflexivity.
Qed.

Lemma top_n_values_Raise (fs : filesystem) (csv_file : string)
  (tc : option string) (n : Z) (normalize lowercase : bool) (e : exn) :
  count_by_columns fs csv_file [tc] normalize lowercase = Raise e ->
  top_n_values fs csv_file tc n normalize lowercase = Raise e.
Proof.
  intros H. unfold top_n_values.
  destruct (_validate_csv_and_columns fs csv_file [tc]) eqn:Hv; simpl.
  - rewrite H; reflexivity.
  - unfold count_by_columns in H. rewrite Hv in H. simpl in H.
    injection H as ->; reflexivity.
Qed.

(** C5 (top_n_values).  When the grouping on the single column fails,
    top_n_values fails alike.  Otherwise it returns the first [n] pairs of
    the full ranking, the grouping result with each singleton key collapsed
    to its bare value: at most [max(n, 0)] pairs, none for [n <= 0], all of
    them when [n] reaches the number of distinct values; the counts
    descend, and two pairs with equal counts stand in the order in which
    their values are first met in the scan. *)
Theorem C5_top_n_prefix_of_ranking
  (fs : filesystem) (csv_file : string) (target_column : option string) (n : Z)
  (normalize lowercase : bool) :
  match count_by_columns fs csv_file [target_column] normalize lowercase with
  | Raise e => top_n_values fs csv_file target_column n normalize lowercase = Raise e
  | Ok d =>
      exists res,
        top_n_values fs csv_file target_column n normalize lowercase = Ok res
        /\ res = firstn (Z.to_nat n) (map bare_value d)
        /\ (List.length res <= Z.to_nat (Z.max n 0))%nat
        /\ (n <= 0 -> res = [])
        /\ (Z.of_nat (List.length (map bare_value d)) <= n -> res = map bare_value d)
        /\ StronglySorted count_ge res
        /\ (forall src ks,
               fs csv_file = Some src ->
               scan_keys normalize lowercase [target_column] src = Ok ks ->
               forall a b, before res a b -> snd a = snd b ->
                           before (first_seen key_eqb ks) [fst a] [fst b])
  end.
Proof.
  destruct (count_by_columns fs csv_file [target_column] normalize lowercase)
    as [d|e] eqn:H; [|apply top_n_values_Raise, H].
  exists (firstn (Z.to_nat n) (map bare_value d)).
  split; [apply top_n_values_spec, H|]. split; [reflexivity|].
  destruct (count_by_columns_spec _ _ _ _ _ _ H) as (src & ks & Hfs & Hks & Hd & Hn).
  assert (Hsorted : Sorted (le_prop by_count_desc) (map bare_value d)).
  { apply Sorted_bare_value. subst d. apply sorted_Sorted, by_count_desc_total. }
  split; [|split; [|split; [|split]]].
  - etransitivity; [apply firstn_le_length|]. lia.
  - intros Hle. replace (Z.to_nat n) with O by lia. reflexivity.
  - intros Hge. apply firstn_all2. lia.
  - apply Sorted_count_ge, Sorted_firstn, Hsorted.
  - intros src' ks' Hfs' Hks' a b Hab Htie.
    rewrite Hfs in Hfs'; injection Hfs' as <-.
    rewrite Hks in Hks'; injection Hks' as <-.
    apply before_firstn in Hab.
    apply before_map in Hab as (a' & b' & -> & -> & Hab).
    simpl in Htie.
    assert (Ha : exists c, fst a' = [c]).
    { subst d. eapply ranking_keys_singleton; [eassumption|]. apply (before_In _ _ _ Hab). }
    assert (Hb : exists c, fst b' = [c]).
    { subst d. eapply ranking_keys_singleton; [eassumption|]. apply (before_In _ _ _ Hab). }
    destruct Ha as (ca & Ha), Hb as (cb & Hb).
    rewrite Hd in Hab. apply sorted_stable in Hab.
    2:{ unfold by_count_desc. apply Z.leb_le. lia. }
    apply (before_map_fwd fst) in Hab.
    rewrite counter_keys_first_seen in Hab.
    unfold bare_value; simpl. rewrite Ha, Hb in *. exact Hab.
Qed.

Lemma C5_licenses_witness :
  exists res,
    top_n_values licenses_fs "licenses.csv" (Some "LicenseType") 1 true false = Ok res
    /\ res = [(CStr "DogIndividualSpayedFemale", 2)].
Proof.
  pose proof (C5_top_n_prefix_of_ranking licenses_fs "licenses.csv"
                (Some "LicenseType") 1 true false) as H.
  assert (E : count_by_columns licenses_fs "licenses.csv" [Some "LicenseType"] true false
              = Ok [ ([CStr "DogIndividualSpayedFemale"], 2);
                     ([CStr "DogIndividualMale"], 1) ]) by reflexivity.
  rewrite E in H. destruct H as (res & H1 & H2 & _).
  exists res; split; [exact H1 | rewrite H2; reflexivity].
Defined.

(** ** Normalization *)

Lemma replace_space_filter (s : string) :
  list_ascii_of_string (PyStr.replace_space s)
  = filter (fun c => negb (Ascii.eqb c " ")) (list_ascii_of_string s).
Proof.
  induction s as [|c s IH]; simpl; [reflexivity|].
  destruct (Ascii.eqb c " "); simpl; [exact IH | f_equal; exact IH].
Qed.

Lemma replace_space_no_space (s : string) :
  PyStr.contains " " (PyStr.replace_space s) = false.
Proof.
  induction s as [|c s IH]; simpl; [reflexivity|].
  destruct (Ascii.eqb c " ") eqn:E; simpl; [exact IH | rewrite E; exact IH].
Qed.

Lemma lower_char_eqb_space (c : ascii) :
  Ascii.eqb (PyStr.lower_char c) " " = Ascii.eqb c " ".
Proof.
  destruct c as [b0 b1 b2 b3 b4 b5 b6 b7].
  destruct b0, b1, b2, b3, b4, b5, b6, b7; reflexivity.
Qed.

Lemma lower_no_space (s : string) :
  PyStr.contains " " s = false -> PyStr.contains " " (PyStr.lower s) = false.
Proof.
  induction s as [|c s IH]; simpl; [auto|].
  rewrite lower_char_eqb_space. intros H.
  apply orb_false_iff in H as [-> H]. simpl; auto.
Qed.

Lemma normalize_value_no_space (lowercase : bool) (s : string) :
  PyStr.contains " " (normalize_value true lowercase s) = false.
Proof.
  unfold normalize_value. destruct lowercase.
  - apply lower_no_space, replace_space_no_space.
  - apply replace_space_no_space.
Qed.

Lemma key_component_no_space (lowercase : bool) (r : row) (col : option string)
  (s : string) :
  key_component true lowercase r col = Ok (CStr s) -> PyStr.contains " " s = false.
Proof.
  unfold key_component. destruct lowercase.
  - destruct (row_item r col) as [[t|]|e]; simpl; try discriminate.
    intros H; injection H as <-. apply lower_no_space, replace_space_no_space.
  - destruct (row_item r col) as [[t|]|e]; simpl; try discriminate.
    intros H; injection H as <-. apply replace_space_no_space.
Qed.

Lemma firstn_In {A : Type} (n : nat) (l : list A) (x : A) :
  In x (firstn n l) -> In x l.
Proof.
  intros H. rewrite <- (firstn_skipn n l). apply in_or_app; auto.
Qed.

Lemma count_by_columns_no_space (fs : filesystem) (csv_file : string)
  (cols : list (option string)) (lowercase : bool) (d : @dict (list cell) Z) :
  count_by_columns fs csv_file cols true lowercase = Ok d ->
  forall k s, In k (map fst d) -> In (CStr s) k -> PyStr.contains " " s = false.
Proof.
  intros H k s Hk Hs.
  apply count_by_columns_spec in H as (src & ks & _ & Hks & -> & _).
  apply in_map_iff in Hk as (kv & <- & Hkv).
  apply sorted_In in Hkv. apply (in_map fst) in Hkv.
  apply counter_keys_In in Hkv as [[]|Hkv].
  destruct (mapM_In _ _ _ Hks _ Hkv) as (r & _ & Hr).
  destruct (mapM_In _ _ _ Hr _ Hs) as (col & _ & Hc).
  eapply key_component_no_space, Hc.
Qed.

(** * Further properties of csv_processor *)

(** ** Unique values do not depend on the order of the records *)

Lemma str_lt_irrefl (a : string) : ~ str_lt a a.
Proof.
  unfold str_lt. intros H.
  assert (E : String.compare a a = Eq) by (apply String_as_OT.cmp_eq; reflexivity).
  congruence.
Qed.

Lemma strictly_sorted_unique (l1 l2 : list string) :
  StronglySorted str_lt l1 -> StronglySorted str_lt l2 ->
  (forall x, In x l1 <-> In x l2) -> l1 = l2.
Proof.
  revert l2; induction l1 as [|a l1 IH]; intros [|b l2] H1 H2 Hin.
  - reflexivity.
  - destruct (proj2 (Hin b) (or_introl eq_refl)).
  - destruct (proj1 (Hin a) (or_introl eq_refl)).
  - inversion H1 as [|? ? S1 F1]; subst. inversion H2 as [|? ? S2 F2]; subst.
    rewrite Forall_forall in F1, F2.
    assert (Eab : a = b).
    { destruct (proj1 (Hin a) (or_introl eq_refl)) as [E|Ha]; [auto|].
      destruct (proj2 (Hin b) (or_introl eq_refl)) as [E|Hb]; [auto|].
      destruct (str_lt_irrefl a). eapply str_lt_trans; [apply F1, Hb | apply F2, Ha]. }
    subst b. f_equal. apply IH; auto.
    intros x; split; intros Hx.
    + destruct (proj1 (Hin x) (or_intror Hx)) as [E|H]; auto.
      subst x. destruct (str_lt_irrefl a). apply F1, Hx.
    + destruct (proj2 (Hin x) (or_intror Hx)) as [E|H]; auto.
      subst x. destruct (str_lt_irrefl a). apply F2, Hx.
Qed.

Lemma rows_In (fn : list string) (recs : list (list string)) (r : row) :
  In r (Csv.rows (fn :: recs)) <->
  exists rec, In rec recs /\ Csv.is_blank rec = false /\ r = Csv.make_row fn rec.
Proof.
  simpl. rewrite in_map_iff. split.
  - intros (rec & <- & H). apply filter_In in H as [H Hb].
    exists rec; repeat split; auto. apply negb_true_iff, Hb.
  - intros (rec & H & Hb & ->). exists rec; split; auto.
    apply filter_In; split; auto. apply negb_true_iff, Hb.
Qed.

(** X1 (extract_unique_values).  Two sources with the same header and the
    same set of records, in whatever order and however often repeated, give
    the same outcome. *)
Theorem X1_unique_values_ignore_order
  (fs fs' : filesystem) (csv_file : string) (fn : list string)
  (recs recs' : list (list string)) (target_column : option string)
  (normalize lowercase : bool) :
  fs csv_file = Some (fn :: recs) -> fs' csv_file = Some (fn :: recs') ->
  (forall rec, In rec recs <-> In rec recs') ->
  extract_unique_values fs csv_file target_column normalize lowercase
  = extract_unique_values fs' csv_file target_column normalize lowercase.
Proof.
  intros Hfs Hfs' Hsame. unfold extract_unique_values.
  rewrite (validate_header_only fs fs' csv_file fn recs recs' _ Hfs Hfs').
  destruct (_validate_csv_and_columns fs' csv_file [target_column]); simpl; auto.
  unfold open_reader. rewrite Hfs, Hfs'. simpl bind. f_equal.
  apply strictly_sorted_unique.
  - apply sorted_strict, unique_fold_NoDup; constructor.
  - apply sorted_strict, unique_fold_NoDup; constructor.
  - intros x. rewrite !sorted_In, !unique_fold_In. simpl.
    split; (intros [[]|(r & s & Hr & H)]; right; exists r, s; split; auto;
            apply rows_In in Hr as (rec & Hrec & Hb & ->); apply rows_In;
            exists rec; repeat split; auto; apply Hsame; exact Hrec).
Qed.

Lemma X1_reordered_witness :
  extract_unique_values whitespaces_fs "whitespaces.csv" (Some "Breed") true true
  = extract_unique_values
      (one_file "whitespaces.csv"
         [ ["Breed"]; [" LAB   MIX"]; ["Bichon Frise"]; [" CHIHUAHUA"];
           ["Bichon Frise"] ])
      "whitespaces.csv" (Some "Breed") true true.
Proof.
  apply (X1_unique_values_ignore_order whitespaces_fs _ "whitespaces.csv" ["Breed"]
           [[" CHIHUAHUA"]; ["Bichon Frise"]; [" LAB   MIX"]]
           [[" LAB   MIX"]; ["Bichon Frise"]; [" CHIHUAHUA"]; ["Bichon Frise"]]);
    [reflexivity | reflexivity |].
  intros rec; simpl; intuition.
Defined.

(** ** The frequency table counts the rows of each key *)

Section DictLookup.
Context {K V : Type} (keqb : K -> K -> bool).
Hypothesis keqb_spec : forall a b, reflect (a = b) (keqb a b).

Lemma dict_get_dict_set (d : @dict K V) (k k' : K) (v : V) :
  dict_get keqb (dict_set keqb d k v) k'
  = if keqb k' k then Some v else dict_get keqb d k'.
Proof.
  induction d as [|[k0 v0] d IH]; simpl.
  - destruct (keqb k' k); reflexivity.
  - destruct (keqb_spec k k0) as [->|Hk]; simpl.
    + destruct (keqb_spec k' k0); reflexivity.
    + destruct (keqb_spec k' k0) as [->|Hk'].
      * destruct (keqb_spec k0 k); [congruence | reflexivity].
      * apply IH.
Qed.

Lemma dict_get_notin (d : @dict K V) (k : K) :
  ~ In k (map fst d) -> dict_get keqb d k = None.
Proof.
  induction d as [|[k0 v0] d IH]; simpl; intros H; [reflexivity|].
  destruct (keqb_spec k k0) as [->|Hk]; [tauto | apply IH; tauto].
Qed.

Lemma dict_get_In_NoDup (d : @dict K V) (k : K) (v : V) :
  NoDup (map fst d) -> In (k, v) d -> dict_get keqb d k = Some v.
Proof.
  induction d as [|[k0 v0] d IH]; simpl; intros Hn H; [destruct H|].
  inversion Hn as [|? ? Hk0 Hn']; subst.
  destruct H as [E|H].
  - injection E as -> ->. destruct (keqb_spec k k); [reflexivity | congruence].
  - destruct (keqb_spec k k0) as [->|Hk]; [|auto].
    destruct Hk0. apply (in_map fst) in H. exact H.
Qed.

(** The last binding of a key among pairs that all bind [f] of the key. *)
Lemma dict_get_fold_pairs (f : K -> V) (l acc : list (K * V)) (k : K) :
  (forall kv, In kv l -> snd kv = f (fst kv)) ->
  dict_get keqb (fold_left (fun d kv => dict_set keqb d (fst kv) (snd kv)) l acc) k
  = if existsb (keqb k) (map fst l) then Some (f k) else dict_get keqb acc k.
Proof.
  revert acc; induction l as [|[k0 v0] l IH]; simpl; intros acc H; [reflexivity|].
  rewrite IH by (intros; apply H; auto).
  destruct (existsb (keqb k) (map fst l)).
  - rewrite orb_true_r; reflexivity.
  - rewrite orb_false_r, dict_get_dict_set.
    destruct (keqb_spec k k0) as [->|Hk]; [|reflexivity].
    f_equal. apply (H (k0, v0)). left; reflexivity.
Qed.
End DictLookup.

Lemma key_count_cons (k0 k : list cell) (ks : list (list cell)) :
  key_count (k0 :: ks) k = (if key_eqb k k0 then 1 else 0) + key_count ks k.
Proof.
  unfold key_count; simpl. destruct (key_eqb k k0); simpl List.length; lia.
Qed.

Lemma counter_value (ks : list (list cell)) (acc : @dict (list cell) Z)
  (k : list cell) :
  match dict_get key_eqb (fold_left counter_incr ks acc) k with
  | Some c => c
  | None => 0
  end
  = match dict_get key_eqb acc k with Some c => c | None => 0 end
    + key_count ks k.
Proof.
  revert acc; induction ks as [|k0 ks IH]; intros acc.
  - unfold key_count; simpl. destruct (dict_get key_eqb acc k); lia.
  - cbn [fold_left]. rewrite IH, key_count_cons.
    unfold counter_incr. rewrite (dict_get_dict_set key_eqb key_eqb_spec).
    destruct (key_eqb_spec k k0) as [->|Hk];
      [destruct (dict_get key_eqb acc k0) | destruct (dict_get key_eqb acc k)];
      lia.
Qed.

Lemma key_count_pos (ks : list (list cell)) (k : list cell) :
  In k ks -> 1 <= key_count ks k.
Proof.
  intros H. unfold key_count.
  assert (Hf : In k (filter (key_eqb k) ks)).
  { apply filter_In; split; auto. destruct (key_eqb_spec k k); congruence. }
  destruct (filter (key_eqb k) ks); [destruct Hf | simpl; lia].
Qed.

Lemma counter_keys_complete (ks : list (list cell)) (k : list cell) :
  In k ks -> In k (map fst (fold_left counter_incr ks [])).
Proof.
  intros H. apply key_count_pos in H.
  destruct (in_dec (list_eq_dec (fun a b => reflect_dec _ _ (cell_eqb_spec a b)))
              k (map fst (fold_left counter_incr ks []))) as [Hin|Hnot]; auto.
  apply (dict_get_notin key_eqb key_eqb_spec) in Hnot.
  pose proof (counter_value ks [] k) as E. rewrite Hnot in E. simpl in E. lia.
Qed.

(** The keys and counts of a result of count_by_columns. *)
Lemma count_by_columns_frequency
  (fs : filesystem) (csv_file : string) (cols : list (option string))
  (normalize lowercase : bool) (d : @dict (list cell) Z) :
  count_by_columns fs csv_file cols normalize lowercase = Ok d ->
  exists src ks,
    fs csv_file = Some src
    /\ scan_keys normalize lowercase cols src = Ok ks
    /\ NoDup (map fst d)
    /\ (forall k, In k ks <-> In k (map fst d))
    /\ (forall k c, In (k, c) d ->
                    c = key_count ks k /\ 1 <= c
                    /\ List.length k = List.length cols).
Proof.
  intros H.
  destruct (count_by_columns_spec _ _ _ _ _ _ H) as (src & ks & Hfs & Hks & Hd & Hn).
  exists src, ks. split; [exact Hfs|]. split; [exact Hks|]. split; [exact Hn|].
  subst d. split.
  - intros k; split; intros Hk.
    + apply counter_keys_complete in Hk.
      apply in_map_iff in Hk as (kv & <- & Hkv). apply in_map, sorted_In, Hkv.
    + apply in_map_iff in Hk as (kv & <- & Hkv).
      apply sorted_In in Hkv. apply (in_map fst) in Hkv.
      apply counter_keys_In in Hkv as [[]|Hkv]; exact Hkv.
  - intros k c Hin. apply sorted_In in Hin.
    assert (Hk : In k ks).
    { apply (in_map fst) in Hin. apply counter_keys_In in Hin as [[]|Hin]; exact Hin. }
    pose proof (counter_value ks [] k) as E.
    rewrite (dict_get_In_NoDup key_eqb key_eqb_spec _ k c) in E;
      [|apply counter_keys_NoDup; constructor | exact Hin].
    cbn [dict_get] in E.
    pose proof (key_count_pos _ _ Hk) as Hpos.
    split; [lia|]. split; [lia|].
    destruct (mapM_In _ _ _ Hks _ Hk) as (r & _ & Hr).
    apply mapM_length in Hr. exact Hr.
Qed.

(** X2 (count_by_columns).  Whenever the call returns, the keys of the
    result are pairwise distinct and are exactly the keys met in the scan;
    each key has one component per requested column, and its count is the
    number of rows that carry this key, at least one. *)
Theorem X2_counts_are_row_frequencies
  (fs : filesystem) (csv_file : string) (cols : list (option string))
  (normalize lowercase : bool) (d : @dict (list cell) Z) :
  count_by_columns fs csv_file cols normalize lowercase = Ok d ->
  exists src ks,
    fs csv_file = Some src
    /\ scan_keys normalize lowercase cols src = Ok ks
    /\ NoDup (map fst d)
    /\ (forall k, In k ks <-> In k (map fst d))
    /\ (forall k c, In (k, c) d ->
                    c = key_count ks k /\ 1 <= c
                    /\ List.length k = List.length cols).
Proof. apply count_by_columns_frequency. Qed.

Lemma X2_licenses_witness :
  exists src ks,
    licenses_fs "licenses.csv" = Some src
    /\ scan_keys true false [Some "LicenseType"] src = Ok ks
    /\ NoDup (map fst [ ([CStr "DogIndividualSpayedFemale"], 2);
                        ([CStr "DogIndividualMale"], 1) ])
    /\ (forall k, In k ks <->
                  In k (map fst [ ([CStr "DogIndividualSpayedFemale"], 2);
                                  ([CStr "DogIndividualMale"], 1) ]))
    /\ (forall k c, In (k, c) [ ([CStr "DogIndividualSpayedFemale"], 2);
                                ([CStr "DogIndividualMale"], 1) ] ->
                    c = key_count ks k /\ 1 <= c
                    /\ List.length k = List.length [Some "LicenseType"]).
Proof.
  exact (X2_counts_are_row_frequencies licenses_fs "licenses.csv"
           [Some "LicenseType"] true false _ eq_refl).
Defined.

Lemma Sorted_desc_counts {K : Type} (l : list (K * Z)) :
  Sorted (le_prop by_count_desc) l -> Sorted (fun a b => snd b <= snd a) l.
Proof.
  induction 1 as [|a l _ IH Hh]; constructor; auto.
  destruct Hh as [|b l' Hab]; constructor. apply Z.leb_le. exact Hab.
Qed.

(** X3 (count_by_columns).  Whenever the call returns, the counts sum to
    the number of rows the reader yields and stand in descending order. *)
Theorem X3_counts_sum_and_descend
  (fs : filesystem) (csv_file : string) (cols : list (option string))
  (normalize lowercase : bool) (d : @dict (list cell) Z) :
  count_by_columns fs csv_file cols normalize lowercase = Ok d ->
  exists src,
    fs csv_file = Some src
    /\ sum_counts d = Z.of_nat (List.length (Csv.rows src))
    /\ StronglySorted (fun a b => snd b <= snd a) d.
Proof.
  intros H.
  destruct (count_by_columns_sum _ _ _ _ _ _ H) as (src & Hfs & Hsum).
  exists src. split; [exact Hfs|]. split; [exact Hsum|].
  destruct (count_by_columns_spec _ _ _ _ _ _ H) as (src' & ks & _ & _ & Hd & _).
  apply Sorted_StronglySorted.
  - intros a b c Hab Hbc. lia.
  - subst d. apply Sorted_desc_counts, sorted_Sorted, by_count_desc_total.
Qed.

Lemma X3_licenses_witness :
  exists src,
    licenses_fs "licenses.csv" = Some src
    /\ sum_counts [ ([CStr "DACHSHUND"], 1); ([CStr "SCHNOODLE"], 1);
                    ([CStr "BICHONFRISE"], 1) ]
       = Z.of_nat (List.length (Csv.rows src))
    /\ StronglySorted (fun a b => snd b <= snd a)
         [ ([CStr "DACHSHUND"], 1); ([CStr "SCHNOODLE"], 1);
           ([CStr "BICHONFRISE"], 1) ].
Proof.
  exact (X3_counts_sum_and_descend licenses_fs "licenses.csv" [Some "Breed"]
           true false _ eq_refl).
Defined.

(** ** When count_by_columns raises *)

Section CountScan.
Variables (normalize lowercase : bool) (cols : list (option string)).

Lemma group_key_cases (r : row) (cs : list (option string)) :
  (forall col, In col cs -> exists v, row_item r col = Ok v) ->
  if (normalize || lowercase) && row_has_none cs r
  then mapM (key_component normalize lowercase r) cs
       = Raise (AttributeError msg_no_replace)
  else exists k, mapM (key_component normalize lowercase r) cs = Ok k.
Proof.
  induction cs as [|col cs IH]; intros H.
  - rewrite andb_false_r. simpl; eauto.
  - assert (IH' := IH (fun c Hc => H c (or_intror Hc))). clear IH.
    destruct (H col (or_introl eq_refl)) as (v & Hv).
    unfold row_has_none in *. cbn [existsb mapM]. rewrite Hv.
    unfold key_component at 1. unfold key_component at 2.
    destruct lowercase, normalize; rewrite Hv; cbn [orb andb bind] in *;
      destruct v as [s|]; cbn [orb andb bind cell_replace_space cell_lower];
      try reflexivity;
      try (destruct (existsb _ cs);
           [rewrite IH'; reflexivity | destruct IH' as (k & ->); simpl; eauto]);
      try (destruct IH' as (k & ->); simpl; eauto).
Qed.

Lemma count_scan_cases (rs : list row) (acc : @dict (list cell) Z) :
  (forall r col, In r rs -> In col cols -> exists v, row_item r col = Ok v) ->
  if (normalize || lowercase) && existsb (row_has_none cols) rs
  then foldM (count_step normalize lowercase cols) rs acc
       = Raise (AttributeError msg_no_replace)
  else exists d, foldM (count_step normalize lowercase cols) rs acc = Ok d.
Proof.
  revert acc; induction rs as [|r rs IH]; intros acc H.
  - rewrite andb_false_r. simpl; eauto.
  - assert (Hr := group_key_cases r cols (fun c => H r c (or_introl eq_refl))).
    assert (IH' := fun acc' => IH acc' (fun r' c Hr' => H r' c (or_intror Hr'))).
    clear IH. cbn [existsb foldM]. unfold count_step at 1. unfold count_step at 2.
    unfold group_key.
    destruct (normalize || lowercase); cbn [andb] in *.
    + destruct (row_has_none cols r); cbn [orb].
      * rewrite Hr; reflexivity.
      * destruct Hr as (k & ->). cbn [bind]. apply IH'.
    + destruct Hr as (k & ->). cbn [bind]. apply IH'.
Qed.
End CountScan.

(** X4 (count_by_columns).  On a validated source the call raises only
    when a flag is set and some row lacks a grouped cell, and then it
    raises the [AttributeError] of [None.replace]; in every other case it
    returns a result. *)
Theorem X4_count_by_columns_outcome
  (fs : filesystem) (csv_file : string) (cols : list (option string))
  (normalize lowercase : bool) (src : source) :
  fs csv_file = Some src ->
  _validate_csv_and_columns fs csv_file cols = Ok tt ->
  if (normalize || lowercase) && existsb (row_has_none cols) (Csv.rows src)
  then count_by_columns fs csv_file cols normalize lowercase
       = Raise (AttributeError msg_no_replace)
  else exists d, count_by_columns fs csv_file cols normalize lowercase = Ok d.
Proof.
  intros Hfs Hv.
  destruct (validate_Ok_inv _ _ _ _ Hv) as (fn & recs & Hfs' & Hc).
  rewrite Hfs in Hfs'; injection Hfs' as ->.
  assert (Hscan := count_scan_cases normalize lowercase cols (Csv.rows (fn :: recs)) []
                     (fun r c => rows_items fn recs cols Hc r c)).
  unfold count_by_columns, open_reader. rewrite Hv, Hfs. cbn [bind].
  destruct ((normalize || lowercase)
            && existsb (row_has_none cols) (Csv.rows (fn :: recs))).
  - rewrite Hscan; reflexivity.
  - destruct Hscan as (d & ->). cbn [bind]. eauto.
Qed.

Lemma X4_ragged_witness :
  count_by_columns ragged_fs "ragged.csv" [Some "Breed"; Some "LicenseType"] false true
  = Raise (AttributeError msg_no_replace).
Proof.
  exact (X4_count_by_columns_outcome ragged_fs "ragged.csv"
           [Some "Breed"; Some "LicenseType"] false true ragged eq_refl eq_refl).
Defined.

(** X5 (top_n_values).  Every pair the call returns holds a value met in
    the scan together with the number of rows that carry it, at least
    one. *)
Theorem X5_top_n_counts_rows
  (fs : filesystem) (csv_file : string) (target_column : option string) (n : Z)
  (normalize lowercase : bool) (res : list (cell * Z)) :
  top_n_values fs csv_file target_column n normalize lowercase = Ok res ->
  exists src ks,
    fs csv_file = Some src
    /\ scan_keys normalize lowercase [target_column] src = Ok ks
    /\ forall v c, In (v, c) res ->
                   In [v] ks /\ c = key_count ks [v] /\ 1 <= c.
Proof.
  intros H.
  assert (Hd : exists d, count_by_columns fs csv_file [target_column]
                           normalize lowercase = Ok d).
  { unfold top_n_values in H. apply bind_Ok_inv in H as (u & _ & H).
    apply bind_Ok_inv in H as (d & Hd & _). eauto. }
  destruct Hd as (d & Hd).
  rewrite (top_n_values_spec _ _ _ _ _ _ _ Hd) in H. injection H as <-.
  destruct (count_by_columns_frequency _ _ _ _ _ _ Hd)
    as (src & ks & Hfs & Hks & _ & Hkeys & Hcount).
  exists src, ks. split; [exact Hfs|]. split; [exact Hks|].
  intros v c Hin.
  apply firstn_In, in_map_iff in Hin as ([k c'] & E & Hkv).
  unfold bare_value in E; simpl in E. injection E as Ev ->.
  destruct (Hcount _ _ Hkv) as (Hc & Hpos & Hlen).
  destruct k as [|v0 [|v1 k]]; try discriminate. simpl in Ev; subst v0.
  split; [|split; assumption].
  apply Hkeys. apply (in_map fst) in Hkv. exact Hkv.
Qed.

Lemma X5_licenses_witness :
  exists src ks,
    licenses_fs "licenses.csv" = Some src
    /\ scan_keys true false [Some "LicenseType"] src = Ok ks
    /\ forall v c, In (v, c) [(CStr "DogIndividualSpayedFemale", 2)] ->
                   In [v] ks /\ c = key_count ks [v] /\ 1 <= c.
Proof.
  exact (X5_top_n_counts_rows licenses_fs "licenses.csv" (Some "LicenseType") 1
           true false _ eq_refl).
Defined.

(** ** What values_in_date_range returns *)

Lemma column_eqb_reflect (a b : option string) : reflect (a = b) (column_eqb a b).
Proof.
  destruct a as [s|], b as [t|]; simpl; try (constructor; congruence).
  destruct (String.eqb_spec s t); constructor; congruence.
Qed.

Lemma row_get_of_item (r : row) (col : option string) (v default : cell) :
  row_item r col = Ok v -> row_get r col default = v.
Proof.
  unfold row_item, row_get. destruct col as [c|]; [|discriminate].
  destruct (dict_get String.eqb r c); [congruence | discriminate].
Qed.

Lemma project_items (tcs : list (option string)) (r : row) :
  (forall c, In c tcs -> exists w, row_item r c = Ok w) ->
  mapM (fun col => v <- row_item r col ;; Ok (col, v)) tcs
  = Ok (map (fun col => (col, row_get r col CNone)) tcs).
Proof.
  intros H. apply mapM_all_Ok. intros c Hc.
  destruct (H c Hc) as (w & Hw). rewrite Hw, (row_get_of_item _ _ _ _ Hw).
  reflexivity.
Qed.

Lemma project_eq (dc : option string) (tcs : list (option string)) (r : row)
  (v : cell) :
  (forall c, In c tcs -> exists w, row_item r c = Ok w) ->
  row_item r dc = Ok v ->
  project dc tcs r v = Ok (projection_of dc tcs r).
Proof.
  intros H Hv. unfold project, projection_of.
  rewrite (project_items tcs r H), (row_get_of_item _ _ _ _ Hv). reflexivity.
Qed.

Section RangeResult.
Variables (dc : option string) (tcs : list (option string)).
Variables (start end_ : datetime).

Lemma range_step_eq (acc : list projection) (r : row) :
  (forall c, In c (dc :: tcs) -> exists w, row_item r c = Ok w) ->
  date_malformed dc r = None ->
  range_step dc tcs start end_ acc r
  = Ok (acc ++ if in_window dc start end_ r then [projection_of dc tcs r] else []).
Proof.
  intros H. unfold date_malformed, range_step, in_window.
  destruct (H dc (or_introl eq_refl)) as (v & Hv). rewrite Hv. cbn [bind].
  destruct v as [s|]; [|rewrite app_nil_r; reflexivity].
  destruct (PyStr.truthy s); cbn [andb]; [|rewrite app_nil_r; reflexivity].
  destruct (Strptime.timestamp s) as [t|]; [intros _|discriminate].
  destruct (datetime_leb start t && datetime_leb t end_);
    [|rewrite app_nil_r; reflexivity].
  rewrite (project_eq dc tcs r (CStr s)); auto.
  intros c Hc; apply H; right; exact Hc.
Qed.

Lemma range_scan_eq (rs : list row) (acc : list projection) :
  (forall r c, In r rs -> In c (dc :: tcs) -> exists w, row_item r c = Ok w) ->
  first_malformed dc rs = None ->
  foldM (range_step dc tcs start end_) rs acc
  = Ok (acc ++ map (projection_of dc tcs) (filter (in_window dc start end_) rs)).
Proof.
  revert acc; induction rs as [|r rs IH]; intros acc H Hm.
  - simpl. rewrite app_nil_r. reflexivity.
  - cbn [first_malformed] in Hm.
    destruct (date_malformed dc r) eqn:E; [discriminate|].
    cbn [foldM filter].
    rewrite (range_step_eq acc r (fun c => H r c (or_introl eq_refl)) E).
    cbn [bind]. rewrite IH; [|intros r' c Hr'; apply H; right; exact Hr' | exact Hm].
    destruct (in_window dc start end_ r); cbn [map].
    + rewrite <- app_assoc. reflexivity.
    + rewrite app_nil_r. reflexivity.
Qed.
End RangeResult.

(** X6 (values_in_date_range).  On a validated source whose date values
    are empty or well formed, and with parseable bounds, the call returns,
    in source order, one projection for each row whose timestamp lies
    between midnight of the start date and midnight of the end date, both
    inclusive, and nothing else. *)
Theorem X6_date_range_result
  (fs : filesystem) (csv_file : string) (dc : option string) (sd ed : string)
  (tcs : list (option string)) (src : source) (start end_ : datetime) :
  fs csv_file = Some src ->
  _validate_csv_and_columns fs csv_file (dc :: tcs) = Ok tt ->
  Strptime.date sd = Some start -> Strptime.date ed = Some end_ ->
  first_malformed dc (Csv.rows src) = None ->
  values_in_date_range fs csv_file dc sd ed tcs
  = Ok (map (projection_of dc tcs) (filter (in_window dc start end_) (Csv.rows src))).
Proof.
  intros Hfs Hv Hs He Hm.
  rewrite (values_in_date_range_unfold _ _ _ _ _ _ _ _ _ Hfs Hv Hs He).
  destruct (validate_Ok_inv _ _ _ _ Hv) as (fn & recs & Hfs' & Hc).
  rewrite Hfs in Hfs'; injection Hfs' as ->.
  rewrite range_scan_eq; auto.
  intros r c; apply rows_items, Hc.
Qed.

Lemma X6_licenses_witness :
  values_in_date_range licenses_fs "licenses.csv" (Some "ValidDate")
    "12/31/2016" "1/4/2017" [Some "DogName"]
  = Ok (map (projection_of (Some "ValidDate") [Some "DogName"])
          (filter (in_window (Some "ValidDate") (mk_datetime 2016 12 31 0 0)
                     (mk_datetime 2017 1 4 0 0))
             (Csv.rows licenses))).
Proof.
  exact (X6_date_range_result licenses_fs "licenses.csv" (Some "ValidDate")
           "12/31/2016" "1/4/2017" [Some "DogName"] licenses
           (mk_datetime 2016 12 31 0 0) (mk_datetime 2017 1 4 0 0)
           eq_refl eq_refl eq_refl eq_refl eq_refl).
Defined.

(** X7 (values_in_date_range, the projection).  The dictionary built for a
    qualifying row maps the date column to the raw date value, every other
    requested column to the cell of the row, and holds no other key. *)
Theorem X7_projection_lookup
  (dc : option string) (tcs : list (option string)) (r : row) (v : cell)
  (p : projection) :
  project dc tcs r v = Ok p ->
  dict_get column_eqb p dc = Some v
  /\ (forall col, In col tcs -> col <> dc ->
                  exists w, row_item r col = Ok w
                            /\ dict_get column_eqb p col = Some w)
  /\ (forall col, col <> dc -> ~ In col tcs -> dict_get column_eqb p col = None).
Proof.
  intros H. unfold project in H.
  apply bind_Ok_inv in H as (items & Hitems & H). injection H as <-.
  assert (Hrow : forall c, In c tcs -> exists w, row_item r c = Ok w).
  { intros c Hc. destruct (row_item r c) as [w|e] eqn:E; [eauto|].
    exfalso. clear - Hitems Hc E. revert items Hitems.
    induction tcs as [|c0 tcs IH]; [destruct Hc|]. intros items Hitems.
    simpl in Hitems. destruct Hc as [->|Hc].
    - rewrite E in Hitems. discriminate.
    - destruct (row_item r c0); simpl in Hitems; [|discriminate].
      destruct (mapM _ tcs) eqn:Em; [|discriminate]. eapply IH; eauto. }
  rewrite (project_items tcs r Hrow) in Hitems. injection Hitems as <-.
  assert (Hget : forall col,
             dict_get column_eqb
               (dict_of_pairs column_eqb (map (fun c => (c, row_get r c CNone)) tcs)) col
             = if existsb (column_eqb col) tcs then Some (row_get r col CNone) else None).
  { intros col. unfold dict_of_pairs.
    rewrite (dict_get_fold_pairs column_eqb column_eqb_reflect
               (fun c => row_get r c CNone)).
    - rewrite map_map. simpl. rewrite map_id. reflexivity.
    - intros kv Hkv. apply in_map_iff in Hkv as (c & <- & _). reflexivity. }
  split; [|split].
  - rewrite (dict_get_dict_set column_eqb column_eqb_reflect).
    destruct (column_eqb_reflect dc dc); [reflexivity | congruence].
  - intros col Hcol Hne. destruct (Hrow col Hcol) as (w & Hw).
    exists w; split; auto.
    rewrite (dict_get_dict_set column_eqb column_eqb_reflect).
    destruct (column_eqb_reflect col dc); [congruence|].
    rewrite Hget.
    apply (existsb_keqb column_eqb column_eqb_reflect) in Hcol. rewrite Hcol.
    f_equal. apply row_get_of_item, Hw.
  - intros col Hne Hnot.
    rewrite (dict_get_dict_set column_eqb column_eqb_reflect).
    destruct (column_eqb_reflect col dc); [congruence|].
    rewrite Hget.
    apply (existsb_keqb_false column_eqb column_eqb_reflect) in Hnot.
    rewrite Hnot. reflexivity.
Qed.

Lemma X7_riley_witness :
  dict_get column_eqb
    [(Some "DogName", CStr "RILEY"); (Some "ValidDate", CStr "1/4/2017 8:39")]
    (Some "ValidDate")
  = Some (CStr "1/4/2017 8:39").
Proof.
  exact (proj1 (X7_projection_lookup (Some "ValidDate") [Some "DogName"]
                  (Csv.make_row ["LicenseType"; "Breed"; "DogName"; "ValidDate"]
                     ["Dog Individual Spayed Female"; "SCHNOODLE"; "RILEY";
                      "1/4/2017 8:39"])
                  (CStr "1/4/2017 8:39") _ eq_refl)).
Defined.

(** ** Failures of the window bounds and the kinds of exceptions *)

(** X8 (values_in_date_range, the bounds).  Once validation has passed, an
    unparseable start date makes the call raise the [ValueError] of
    [strptime] for the start date, and a parseable start date with an
    unparseable end date the one for the end date, whatever the rows hold. *)
Theorem X8_bounds_checked_before_rows
  (fs : filesystem) (csv_file : string) (dc : option string) (sd ed : string)
  (tcs : list (option string)) :
  _validate_csv_and_columns fs csv_file (dc :: tcs) = Ok tt ->
  (Strptime.date sd = None ->
   values_in_date_range fs csv_file dc sd ed tcs
   = Raise (StrptimeValueError sd fmt_date))
  /\ (Strptime.date sd <> None -> Strptime.date ed = None ->
      values_in_date_range fs csv_file dc sd ed tcs
      = Raise (StrptimeValueError ed fmt_date)).
Proof.
  intros Hv. destruct (validate_Ok_inv _ _ _ _ Hv) as (fn & recs & Hfs & _).
  unfold values_in_date_range, open_reader, strptime_bound.
  rewrite Hv, Hfs. cbn [bind]. split.
  - intros ->. reflexivity.
  - intros Hs He. destruct (Strptime.date sd); [|congruence].
    rewrite He. reflexivity.
Qed.

Lemma X8_bad_bound_witness :
  values_in_date_range bad_date_fs "bad_date.csv" (Some "ValidDate")
    "2017-01-04" "2/4/2017" [Some "DogName"]
  = Raise (StrptimeValueError "2017-01-04" fmt_date).
Proof.
  exact (proj1 (X8_bounds_checked_before_rows bad_date_fs "bad_date.csv"
                  (Some "ValidDate") "2017-01-04" "2/4/2017" [Some "DogName"]
                  eq_refl) eq_refl).
Defined.

(** X9 (extract_unique_values, values_in_date_range).  On a source that
    passed validation, extract_unique_values returns a result whatever the
    records hold, short records included, and values_in_date_range raises
    nothing but a [ValueError], that of a bound or that of a date value:
    no lookup of a validated column fails. *)
Theorem X9_validated_calls
  (fs : filesystem) (csv_file : string) :
  (forall column normalize lowercase,
      _validate_csv_and_columns fs csv_file [column] = Ok tt ->
      exists out,
        extract_unique_values fs csv_file column normalize lowercase = Ok out)
  /\ (forall dc sd ed tcs e,
         _validate_csv_and_columns fs csv_file (dc :: tcs) = Ok tt ->
         values_in_date_range fs csv_file dc sd ed tcs = Raise e ->
         value_error e = true).
Proof.
  split.
  - intros column normalize lowercase Hv.
    destruct (validate_Ok_inv _ _ _ _ Hv) as (fn & recs & Hfs & _).
    unfold extract_unique_values, open_reader. rewrite Hv, Hfs. cbn [bind]. eauto.
  - intros dc sd ed tcs e Hv H. unfold values_in_date_range in H.
    destruct (validate_Ok_inv _ _ _ _ Hv) as (fn & recs & Hfs & Hc).
    unfold open_reader, strptime_bound in H. rewrite Hv, Hfs in H. cbn [bind] in H.
    destruct (Strptime.date sd) as [start|];
      [|injection H as <-; reflexivity].
    destruct (Strptime.date ed) as [end_|];
      [|injection H as <-; reflexivity].
    cbn [bind] in H.
    assert (Hscan := range_scan_cases dc tcs start end_ (Csv.rows (fn :: recs)) []
                       (fun r c => rows_items fn recs (dc :: tcs) Hc r c)).
    destruct (first_malformed dc (Csv.rows (fn :: recs))) as [s|].
    + rewrite Hscan in H. injection H as <-. reflexivity.
    + destruct Hscan as (res & Hres). rewrite Hres in H. discriminate.
Qed.

Lemma X9_ragged_witness :
  exists out,
    extract_unique_values ragged_fs "ragged.csv" (Some "LicenseType") true false
    = Ok out.
Proof.
  exact (proj1 (X9_validated_calls ragged_fs "ragged.csv")
           (Some "LicenseType") true false eq_refl).
Defined.

(** ** Lower-casing and the shape of returned values *)

Lemma lower_char_not_upper (c : ascii) : ascii_upper (PyStr.lower_char c) = false.
Proof.
  destruct c as [b0 b1 b2 b3 b4 b5 b6 b7].
  destruct b0, b1, b2, b3, b4, b5, b6, b7; reflexivity.
Qed.

Lemma lower_char_idem (c : ascii) :
  PyStr.lower_char (PyStr.lower_char c) = PyStr.lower_char c.
Proof.
  destruct c as [b0 b1 b2 b3 b4 b5 b6 b7].
  destruct b0, b1, b2, b3, b4, b5, b6, b7; reflexivity.
Qed.

Lemma lower_no_upper (s : string) : has_ascii_upper (PyStr.lower s) = false.
Proof.
  induction s as [|c s IH]; simpl; [reflexivity|].
  rewrite lower_char_not_upper, IH. reflexivity.
Qed.

Lemma lower_idem (s : string) : PyStr.lower (PyStr.lower s) = PyStr.lower s.
Proof.
  induction s as [|c s IH]; simpl; [reflexivity|].
  rewrite lower_char_idem, IH. reflexivity.
Qed.

Lemma replace_space_idem (s : string) :
  PyStr.replace_space (PyStr.replace_space s) = PyStr.replace_space s.
Proof.
  induction s as [|c s IH]; simpl; [reflexivity|].
  destruct (Ascii.eqb c " ") eqn:E; simpl; [exact IH|].
  rewrite E, IH. reflexivity.
Qed.

Lemma replace_space_lower (s : string) :
  PyStr.replace_space (PyStr.lower s) = PyStr.lower (PyStr.replace_space s).
Proof.
  induction s as [|c s IH]; simpl; [reflexivity|].
  rewrite lower_char_eqb_space.
  destruct (Ascii.eqb c " "); simpl; rewrite IH; reflexivity.
Qed.

Lemma normalize_value_idem (normalize lowercase : bool) (s : string) :
  normalize_value normalize lowercase (normalize_value normalize lowercase s)
  = normalize_value normalize lowercase s.
Proof.
  unfold normalize_value. destruct normalize, lowercase; auto.
  - rewrite replace_space_lower, replace_space_idem, lower_idem. reflexivity.
  - apply replace_space_idem.
  - apply lower_idem.
Qed.

(** X10 (the [lowercase] flag).  Under [lowercase=True] no value returned
    by extract_unique_values and no key component of count_by_columns holds
    an upper-case ASCII letter. *)
Theorem X10_lowercase_leaves_no_upper
  (fs : filesystem) (csv_file : string) (normalize : bool) :
  (forall column out,
      extract_unique_values fs csv_file column normalize true = Ok out ->
      forall x, In x out -> has_ascii_upper x = false)
  /\ (forall cols d,
         count_by_columns fs csv_file cols normalize true = Ok d ->
         forall k s, In k (map fst d) -> In (CStr s) k -> has_ascii_upper s = false).
Proof.
  split.
  - intros column out H x Hx. unfold extract_unique_values in H.
    apply bind_Ok_inv in H as (u & _ & H).
    apply bind_Ok_inv in H as (src & _ & H). injection H as <-.
    apply sorted_In, unique_fold_In in Hx as [[]|(r & s & _ & _ & _ & ->)].
    unfold normalize_value. apply lower_no_upper.
  - intros cols d H k s Hk Hs.
    apply count_by_columns_spec in H as (src & ks & _ & Hks & -> & _).
    apply in_map_iff in Hk as (kv & <- & Hkv).
    apply sorted_In in Hkv. apply (in_map fst) in Hkv.
    apply counter_keys_In in Hkv as [[]|Hkv].
    destruct (mapM_In _ _ _ Hks _ Hkv) as (r & _ & Hr).
    destruct (mapM_In _ _ _ Hr _ Hs) as (col & _ & Hc).
    unfold key_component in Hc.
    destruct (row_item r col) as [[t|]|e]; simpl in Hc; try discriminate.
    injection Hc as <-. apply lower_no_upper.
Qed.

Lemma X10_whitespaces_witness :
  has_ascii_upper "bichonfrise" = false.
Proof.
  exact (proj1 (X10_lowercase_leaves_no_upper whitespaces_fs "whitespaces.csv" true)
           (Some "Breed") ["bichonfrise"; "chihuahua"; "labmix"] eq_refl
           "bichonfrise" (or_introl eq_refl)).
Defined.

(** X11 (extract_unique_values).  Every returned value is a fixed point of
    the normalization the call was made with: normalizing it again changes
    nothing. *)
Theorem X11_unique_values_are_normal
  (fs : filesystem) (csv_file : string) (column : option string)
  (normalize lowercase : bool) (out : list string) :
  extract_unique_values fs csv_file column normalize lowercase = Ok out ->
  forall x, In x out -> normalize_value normalize lowercase x = x.
Proof.
  intros H x Hx. unfold extract_unique_values in H.
  apply bind_Ok_inv in H as (u & _ & H).
  apply bind_Ok_inv in H as (src & _ & H). injection H as <-.
  apply sorted_In, unique_fold_In in Hx as [[]|(r & s & _ & _ & _ & ->)].
  apply normalize_value_idem.
Qed.

Lemma X11_whitespaces_witness :
  normalize_value true true "labmix" = "labmix".
Proof.
  exact (X11_unique_values_are_normal whitespaces_fs "whitespaces.csv"
           (Some "Breed") true true ["bichonfrise"; "chihuahua"; "labmix"] eq_refl
           "labmix" (or_intror (or_intror (or_introl eq_refl)))).
Defined.

(** * Properties of insert_with_retry *)

Module RetryFacts.
Import FromFlatFile.

Lemma attempts_settle (db : engine) (delay : Z) (k remaining attempt : nat) :
  0 <= delay -> (k < remaining)%nat ->
  (forall i, (i < k)%nat -> retried (db (attempt + i)%nat) = true) ->
  retried (db (attempt + k)%nat) = false ->
  snd (attempts db delay remaining attempt) = settle (db (attempt + k)%nat)
  /\ connects (fst (attempts db delay remaining attempt)) = S k
  /\ slept (fst (attempts db delay remaining attempt)) = Z.of_nat k * delay.
Proof.
  intros Hd. revert remaining attempt.
  induction k as [|k IH]; intros remaining attempt Hlt Hlocked Hfree.
  - destruct remaining as [|remaining]; [lia|].
    rewrite Nat.add_0_r in *. cbn [attempts].
    unfold retried in Hfree. unfold settle.
    destruct (db attempt) as [|msg|name]; cbn; auto.
    rewrite Hfree. cbn; auto.
  - destruct remaining as [|remaining]; [lia|].
    cbn [attempts].
    assert (H0 := Hlocked O ltac:(lia)). rewrite Nat.add_0_r in H0.
    unfold retried in H0.
    destruct (db attempt) as [|msg|name]; try discriminate.
    rewrite H0. destruct (Z.ltb_spec delay 0) as [Hneg|_]; [lia|].
    destruct (IH remaining (S attempt)) as (Hout & Hcon & Hsl).
    + lia.
    + intros i Hi. replace (S attempt + i)%nat with (attempt + S i)%nat by lia.
      apply Hlocked. lia.
    + replace (S attempt + k)%nat with (attempt + S k)%nat by lia. exact Hfree.
    + replace (S attempt + k)%nat with (attempt + S k)%nat in Hout by lia.
      destruct (attempts db delay remaining (S attempt)) as [tr out].
      cbn [fst snd connects slept] in *. repeat split; auto; lia.
Qed.

Lemma attempts_exhaust (db : engine) (delay : Z) (remaining attempt : nat) :
  0 <= delay ->
  (forall i, (i < remaining)%nat -> retried (db (attempt + i)%nat) = true) ->
  snd (attempts db delay remaining attempt) = Failed msg_failed
  /\ connects (fst (attempts db delay remaining attempt)) = remaining
  /\ slept (fst (attempts db delay remaining attempt)) = Z.of_nat remaining * delay.
Proof.
  intros Hd. revert attempt.
  induction remaining as [|remaining IH]; intros attempt Hlocked.
  - cbn; auto.
  - cbn [attempts].
    assert (H0 := Hlocked O ltac:(lia)). rewrite Nat.add_0_r in H0.
    unfold retried in H0.
    destruct (db attempt) as [|msg|name]; try discriminate.
    rewrite H0. destruct (Z.ltb_spec delay 0) as [Hneg|_]; [lia|].
    destruct (IH (S attempt)) as (Hout & Hcon & Hsl).
    + intros i Hi. replace (S attempt + i)%nat with (attempt + S i)%nat by lia.
      apply Hlocked. lia.
    + destruct (attempts db delay remaining (S attempt)) as [tr out].
      cbn [fst snd connects slept] in *. repeat split; auto; lia.
Qed.

Lemma attempts_bounds (db : engine) (delay : Z) (remaining attempt : nat) :
  (connects (fst (attempts db delay remaining attempt)) <= remaining)%nat
  /\ 0 <= slept (fst (attempts db delay remaining attempt))
          <= Z.of_nat (connects (fst (attempts db delay remaining attempt)))
             * Z.max delay 0
  /\ (snd (attempts db delay remaining attempt) = Returned ->
      (1 <= connects (fst (attempts db delay remaining attempt)))%nat)
  /\ (forall msg, snd (attempts db delay remaining attempt) = Failed msg ->
                  msg = msg_failed
                  /\ connects (fst (attempts db delay remaining attempt)) = remaining).
Proof.
  revert attempt; induction remaining as [|remaining IH]; intros attempt.
  - cbn [attempts fst snd connects slept]. repeat split; intros; try lia; try discriminate; congruence.
  - cbn [attempts].
    destruct (db attempt) as [|msg|name].
    + cbn [fst snd connects slept]. repeat split; intros; try lia; discriminate.
    + destruct (str_in "database is locked" msg).
      * destruct (Z.ltb_spec delay 0) as [Hneg|Hpos].
        -- cbn [fst snd connects slept]. repeat split; intros; try lia; discriminate.
        -- specialize (IH (S attempt)).
           destruct (attempts db delay remaining (S attempt)) as [tr out].
           cbn [fst snd connects slept] in *.
           destruct IH as (Hc & Hs & Hr & Hf).
           split; [lia|]. split; [rewrite Nat2Z.inj_succ, Z.mul_succ_l; lia|].
           split; [intros _; lia|].
           intros m Hm. destruct (Hf m Hm) as [-> E]. split; [reflexivity | lia].
      * cbn [fst snd connects slept]. repeat split; intros; try lia; discriminate.
    + cbn [fst snd connects slept]. repeat split; intros; try lia; discriminate.
Qed.

End RetryFacts.

(** X12 (insert_with_retry).  With a non-negative delay, when each of the
    first [k] passes through the [try] body raises a
    [sqlite3.OperationalError] whose text contains [database is locked], and
    pass [k], still within [retries], does anything else, that pass decides
    how the call ends: it returns after a successful insert, re-raises a
    [sqlite3.OperationalError] with another text, and lets an exception of
    any other class through (also the [OperationalError] of SQLAlchemy,
    which the handler does not catch).  The call has then connected [k + 1]
    times and slept [k] times [delay]. *)
Theorem X12_first_unretried_attempt_decides
  (db : FromFlatFile.engine) (retries delay : Z) (k : nat) :
  0 <= delay -> (k < Z.to_nat retries)%nat ->
  (forall i, (i < k)%nat -> FromFlatFile.retried (db i) = true) ->
  FromFlatFile.retried (db k) = false ->
  snd (FromFlatFile.insert_with_retry db retries delay) = FromFlatFile.settle (db k)
  /\ FromFlatFile.connects (fst (FromFlatFile.insert_with_retry db retries delay))
     = S k
  /\ FromFlatFile.slept (fst (FromFlatFile.insert_with_retry db retries delay))
     = Z.of_nat k * delay.
Proof.
  intros Hd Hk Hlocked Hfree. unfold FromFlatFile.insert_with_retry.
  apply (RetryFacts.attempts_settle db delay k (Z.to_nat retries) O); auto.
Qed.

Lemma X12_inserted_at_third_witness :
  snd (FromFlatFile.insert_with_retry
         (FromFlatFile.locked_then 2 FromFlatFile.Inserted) 3 5)
  = FromFlatFile.Returned
  /\ FromFlatFile.connects
       (fst (FromFlatFile.insert_with_retry
               (FromFlatFile.locked_then 2 FromFlatFile.Inserted) 3 5)) = 3%nat
  /\ FromFlatFile.slept
       (fst (FromFlatFile.insert_with_retry
               (FromFlatFile.locked_then 2 FromFlatFile.Inserted) 3 5)) = 10.
Proof.
  apply (X12_first_unretried_attempt_decides
           (FromFlatFile.locked_then 2 FromFlatFile.Inserted) 3 5 2).
  - lia.
  - simpl; lia.
  - intros [|[|i]] Hi; [reflexivity | reflexivity | lia].
  - reflexivity.
Defined.

(** X13 (insert_with_retry).  With a non-negative delay, when every one of
    the [retries] passes through the [try] body raises a
    [sqlite3.OperationalError] whose text contains [database is locked], the
    call raises the final [Exception], after [retries] connections and as
    many sleeps, the last of them after the last attempt; for
    [retries <= 0] it raises without connecting at all. *)
Theorem X13_exhausted_retries_fail
  (db : FromFlatFile.engine) (retries delay : Z) :
  0 <= delay ->
  (forall i, (i < Z.to_nat retries)%nat -> FromFlatFile.retried (db i) = true) ->
  snd (FromFlatFile.insert_with_retry db retries delay)
  = FromFlatFile.Failed FromFlatFile.msg_failed
  /\ FromFlatFile.connects (fst (FromFlatFile.insert_with_retry db retries delay))
     = Z.to_nat retries
  /\ FromFlatFile.slept (fst (FromFlatFile.insert_with_retry db retries delay))
     = Z.max retries 0 * delay.
Proof.
  intros Hd Hlocked. unfold FromFlatFile.insert_with_retry.
  destruct (RetryFacts.attempts_exhaust db delay (Z.to_nat retries) O Hd Hlocked)
    as (Hout & Hcon & Hsl).
  repeat split; auto. rewrite Hsl. f_equal. lia.
Qed.

Lemma X13_always_retried_witness :
  snd (FromFlatFile.insert_with_retry
         (FromFlatFile.locked_then 3 FromFlatFile.Inserted) 3 5)
  = FromFlatFile.Failed FromFlatFile.msg_failed
  /\ FromFlatFile.connects
       (fst (FromFlatFile.insert_with_retry
               (FromFlatFile.locked_then 3 FromFlatFile.Inserted) 3 5)) = 3%nat
  /\ FromFlatFile.slept
       (fst (FromFlatFile.insert_with_retry
               (FromFlatFile.locked_then 3 FromFlatFile.Inserted) 3 5)) = 15.
Proof.
  apply (X13_exhausted_retries_fail
           (FromFlatFile.locked_then 3 FromFlatFile.Inserted) 3 5).
  - lia.
  - intros [|[|[|i]]] Hi; try reflexivity. simpl in Hi; lia.
Defined.

(** X14 (insert_with_retry).  Whatever the engine does, the call connects
    at most [retries] times, at least once when it returns, and sleeps at
    most once per connection; when it ends in the final [Exception] it has
    used every one of its [retries] attempts. *)
Theorem X14_retry_bounds (db : FromFlatFile.engine) (retries delay : Z) :
  (FromFlatFile.connects (fst (FromFlatFile.insert_with_retry db retries delay))
   <= Z.to_nat retries)%nat
  /\ 0 <= FromFlatFile.slept (fst (FromFlatFile.insert_with_retry db retries delay))
          <= Z.of_nat (FromFlatFile.connects
                         (fst (FromFlatFile.insert_with_retry db retries delay)))
             * Z.max delay 0
  /\ (snd (FromFlatFile.insert_with_retry db retries delay) = FromFlatFile.Returned ->
      (1 <= FromFlatFile.connects
              (fst (FromFlatFile.insert_with_retry db retries delay)))%nat)
  /\ (forall msg,
         snd (FromFlatFile.insert_with_retry db retries delay)
         = FromFlatFile.Failed msg ->
         msg = FromFlatFile.msg_failed
         /\ FromFlatFile.connects
              (fst (FromFlatFile.insert_with_retry db retries delay))
            = Z.to_nat retries).
Proof. apply RetryFacts.attempts_bounds. Qed.

Lemma X14_bounds_witness :
  (1 <= FromFlatFile.connects
          (fst (FromFlatFile.insert_with_retry
                  (FromFlatFile.locked_then 1 FromFlatFile.Inserted) 3 5)))%nat.
Proof.
  exact (proj1 (proj2 (proj2 (X14_retry_bounds
                  (FromFlatFile.locked_then 1 FromFlatFile.Inserted) 3 5)))
           eq_refl).
Defined.

(** * When validation passes *)

Lemma check_columns_Ok_iff (fn : list string) (cols : list (option string)) :
  check_columns fn cols = Ok tt <->
  forall c, In c cols -> column_blank c = false /\ column_in c fn = true.
Proof.
  induction cols as [|c0 cols IH]; simpl.
  - split; [intros _ c [] | reflexivity].
  - destruct (column_blank c0) eqn:Hb.
    + split; [discriminate|]. intros H.
      destruct (H c0 (or_introl eq_refl)); congruence.
    + destruct (column_in c0 fn) eqn:Hin; simpl.
      * rewrite IH. split.
        -- intros H c [<-|Hc]; auto.
        -- intros H c Hc; apply H; auto.
      * split; [discriminate|]. intros H.
        destruct (H c0 (or_introl eq_refl)); congruence.
Qed.

(** X15 (_validate_csv_and_columns).  Validation passes exactly when the
    file name ends in [.csv], in any letter case, the file exists, its
    header is not empty, and every required column name is a non-blank
    string that occurs in the header. *)
Theorem X15_validation_passes_iff
  (fs : filesystem) (csv_file : string) (cols : list (option string)) :
  _validate_csv_and_columns fs csv_file cols = Ok tt <->
  PyStr.endswith (PyStr.lower csv_file) ".csv" = true
  /\ exists fn recs,
      fs csv_file = Some (fn :: recs) /\ fn <> []
      /\ forall c, In c cols -> column_blank c = false /\ column_in c fn = true.
Proof.
  unfold _validate_csv_and_columns.
  destruct (PyStr.endswith (PyStr.lower csv_file) ".csv"); simpl.
  2:{ split; [discriminate | intros [H _]; discriminate]. }
  destruct (fs csv_file) as [[|fn recs]|].
  - split; [discriminate | intros (_ & fn & recs & H & _); discriminate].
  - simpl. destruct fn as [|c fn].
    + split; [discriminate|].
      intros (_ & fn & recs' & H & Hne & _). injection H as <- _. congruence.
    + rewrite check_columns_Ok_iff. split.
      * intros H. split; [reflexivity|]. exists (c :: fn), recs.
        split; [reflexivity|]. split; [discriminate | exact H].
      * intros (_ & fn' & recs' & H & _ & Hc). injection H as <- _. exact Hc.
  - split; [discriminate | intros (_ & fn & recs & H & _); discriminate].
Qed.

Lemma X15_upper_case_extension_witness :
  _validate_csv_and_columns (one_file "WHITESPACES.CSV" whitespaces)
    "WHITESPACES.CSV" [Some "Breed"] = Ok tt.
Proof.
  apply (proj2 (X15_validation_passes_iff (one_file "WHITESPACES.CSV" whitespaces)
                  "WHITESPACES.CSV" [Some "Breed"])).
  split; [reflexivity|].
  exists ["Breed"], [[" CHIHUAHUA"]; ["Bichon Frise"]; [" LAB   MIX"]].
  split; [reflexivity|]. split; [discriminate|].
  intros c [<-|[]]. split; reflexivity.
Defined.

(** * Normalization keeps every character but the space *)

Lemma replace_space_without (s : string) :
  PyStr.replace_space s = without_spaces s.
Proof.
  unfold without_spaces. rewrite <- replace_space_filter.
  symmetry. apply string_of_list_ascii_of_string.
Qed.

Lemma normalize_value_normalized (lowercase : bool) (s : string) :
  normalize_value true lowercase s = normalized lowercase s.
Proof.
  unfold normalize_value, normalized. rewrite replace_space_without. reflexivity.
Qed.

Lemma normalized_no_space (lowercase : bool) (s : string) :
  PyStr.contains " " (normalized lowercase s) = false.
Proof.
  rewrite <- normalize_value_normalized. apply normalize_value_no_space.
Qed.

Lemma key_component_normalized (lowercase : bool) (r : row) (col : option string)
  (c : cell) :
  key_component true lowercase r col = Ok c ->
  exists s, row_item r col = Ok (CStr s) /\ c = CStr (normalized lowercase s).
Proof.
  unfold key_component, normalized. intros H.
  destruct (row_item r col) as [[s|]|e]; destruct lowercase; simpl in H;
    try discriminate; injection H as <-; exists s;
    rewrite replace_space_without; auto.
Qed.

Lemma group_key_normalized (lowercase : bool) (r : row)
  (cols : list (option string)) (k : list cell) :
  group_key true lowercase cols r = Ok k ->
  Forall2 (fun col c => exists s, row_item r col = Ok (CStr s)
                                  /\ c = CStr (normalized lowercase s)) cols k.
Proof.
  unfold group_key. revert k; induction cols as [|col cols IH]; simpl; intros k H.
  - injection H as <-. constructor.
  - apply bind_Ok_inv in H as (c & Hc & H).
    apply bind_Ok_inv in H as (k' & Hk' & H). injection H as <-.
    constructor; [apply key_component_normalized, Hc | apply IH, Hk'].
Qed.

Lemma count_by_columns_normalized (fs : filesystem) (csv_file : string)
  (cols : list (option string)) (lowercase : bool) (d : @dict (list cell) Z) :
  count_by_columns fs csv_file cols true lowercase = Ok d ->
  exists src,
    fs csv_file = Some src
    /\ forall k, In k (map fst d) ->
                 exists r, In r (Csv.rows src)
                           /\ Forall2 (fun col c =>
                                         exists s, row_item r col = Ok (CStr s)
                                                   /\ c = CStr (normalized lowercase s))
                                      cols k.
Proof.
  intros H.
  apply count_by_columns_spec in H as (src & ks & Hfs & Hks & -> & _).
  exists src; split; [exact Hfs|]. intros k Hk.
  apply in_map_iff in Hk as (kv & <- & Hkv).
  apply sorted_In in Hkv. apply (in_map fst) in Hkv.
  apply counter_keys_In in Hkv as [[]|Hkv].
  destruct (mapM_In _ _ _ Hks _ Hkv) as (r & Hr & Hg).
  exists r; split; [exact Hr | apply group_key_normalized, Hg].
Qed.

(** C8, amended (the [normalize] flag in extract_unique_values,
    count_by_columns and top_n_values).  Under [normalize=True] each value
    these operations compare, deduplicate or group is the raw cell with its
    space characters (U+0020) deleted and every other character, tabs and
    the other whitespace included, kept in place, lower-cased afterwards
    when [lowercase] is set: the values of extract_unique_values are exactly
    the raw non-empty cells so transformed, every key component of
    count_by_columns and every value of top_n_values is the cell of a row
    so transformed, and none of them contains a space character. *)
Theorem C8_normalize_removes_spaces_only :
  (forall s,
      list_ascii_of_string (PyStr.replace_space s)
      = filter (fun c => negb (Ascii.eqb c " ")) (list_ascii_of_string s))
  /\ (forall lowercase s, PyStr.contains " " (normalized lowercase s) = false)
  /\ (forall fs csv_file column lowercase out,
         extract_unique_values fs csv_file column true lowercase = Ok out ->
         exists src,
           fs csv_file = Some src
           /\ forall x,
               In x out <->
               exists r s,
                 In r (Csv.rows src)
                 /\ row_get r column (CStr EmptyString) = CStr s
                 /\ s <> EmptyString /\ x = normalized lowercase s)
  /\ (forall fs csv_file cols lowercase d,
         count_by_columns fs csv_file cols true lowercase = Ok d ->
         exists src,
           fs csv_file = Some src
           /\ forall k, In k (map fst d) ->
                        exists r,
                          In r (Csv.rows src)
                          /\ Forall2 (fun col c =>
                                        exists s,
                                          row_item r col = Ok (CStr s)
                                          /\ c = CStr (normalized lowercase s))
                                     cols k)
  /\ (forall fs csv_file column n lowercase res,
         top_n_values fs csv_file column n true lowercase = Ok res ->
         exists src,
           fs csv_file = Some src
           /\ forall v c, In (v, c) res ->
                          exists r s,
                            In r (Csv.rows src)
                            /\ row_item r column = Ok (CStr s)
                            /\ v = CStr (normalized lowercase s)).
Proof.
  split; [exact replace_space_filter|].
  split; [exact normalized_no_space|].
  split; [|split].
  - intros fs csv_file column lowercase out H.
    unfold extract_unique_values in H.
    apply bind_Ok_inv in H as (u & _ & H).
    apply bind_Ok_inv in H as (src & Hsrc & H). injection H as <-.
    exists src. split.
    { unfold open_reader in Hsrc. destruct (fs csv_file); [congruence | discriminate]. }
    intros x. rewrite sorted_In, unique_fold_In. simpl. split.
    + intros [[]|(r & s & Hr & Hg & Hne & ->)].
      exists r, s. rewrite normalize_value_normalized. auto.
    + intros (r & s & Hr & Hg & Hne & ->). right.
      exists r, s. rewrite normalize_value_normalized. auto.
  - exact count_by_columns_normalized.
  - intros fs csv_file column n lowercase res H.
    assert (Hd : exists d, count_by_columns fs csv_file [column] true lowercase = Ok d).
    { unfold top_n_values in H. apply bind_Ok_inv in H as (u & _ & H).
      apply bind_Ok_inv in H as (d & Hd & _). eauto. }
    destruct Hd as (d & Hd).
    rewrite (top_n_values_spec _ _ _ _ _ _ _ Hd) in H. injection H as <-.
    destruct (count_by_columns_normalized _ _ _ _ _ Hd) as (src & Hfs & Hkeys).
    exists src; split; [exact Hfs|]. intros v c Hin.
    apply firstn_In, in_map_iff in Hin as ([k c'] & E & Hkv).
    unfold bare_value in E; simpl in E. injection E as Ev ->.
    destruct (Hkeys k) as (r & Hr & Hf); [apply (in_map fst) in Hkv; exact Hkv|].
    inversion Hf as [|col c0 cols' k' (s & Hs & Hc0) Hrest]; subst.
    simpl. exists r, s. auto.
Qed.

Lemma C8_whitespaces_witness :
  exists r s,
    In r (Csv.rows whitespaces)
    /\ row_get r (Some "Breed") (CStr EmptyString) = CStr s
    /\ s <> EmptyString /\ "LABMIX" = normalized false s.
Proof.
  destruct (proj1 (proj2 (proj2 C8_normalize_removes_spaces_only))
              whitespaces_fs "whitespaces.csv" (Some "Breed") false
              ["BichonFrise"; "CHIHUAHUA"; "LABMIX"] eq_refl)
    as (src & Hfs & H).
  injection Hfs as <-.
  apply (proj1 (H "LABMIX")). right; right; left; reflexivity.
Defined.
